(** * Word Count Tracker: the Express application, embedded in Rocq

    The server of the repository (the "enhanced version with manager
    features"; the older [index.js] has the same login, authentication
    middleware, [/add] and [/edit/:id] statements minus the [description]
    and [daily_target] columns) is a list of Express route handlers over a
    PostgreSQL database.  Each handler is embedded as a function in a small
    monad that threads the database and the list of SQL statements issued,
    and in which a rejected query is an exception, caught by the handler's
    [try]/[catch] as in the source.  Console logging, static files and the
    templates that turn a view's data into a page are left out, and so is
    the earlier login-only prototype among the sources, which shares no
    code with the server.

    Conventions.
    - A JavaScript string is the list of its UTF-16 code units.
    - A JavaScript number that the code obtains from [parseInt] is [NaN] or
      an integer; integers are unbounded here (the source's doubles are
      exact below 2^53).
    - Instants (SQL [CURRENT_TIMESTAMP], dates) are integers on one axis.
      Every request carries the instant [now] at which its statements run. *)

From Stdlib Require Import List ZArith NArith Bool String Ascii Lia Sorted.
Import ListNotations.
Open Scope Z_scope.

(* ================================================================== *)
(** * JavaScript strings and numbers *)
(* ================================================================== *)

Module JS.

Definition jsstring := list N.

(** A string literal of the source, as code units. *)
Definition js (s : string) : jsstring :=
  map N_of_ascii (list_ascii_of_string s).

Fixpoint str_eqb (a b : jsstring) : bool :=
  match a, b with
  | [], [] => true
  | x :: a', y :: b' => N.eqb x y && str_eqb a' b'
  | _, _ => false
  end.

(** [undefined] and the empty string are falsy, every other string is
    truthy. *)
Definition truthy (v : option jsstring) : bool :=
  match v with
  | Some (_ :: _) => true
  | _ => false
  end.

(** ECMAScript WhiteSpace and LineTerminator code points: what
    [String.prototype.trim], the regular expression class [\s] and the
    leading-blank skipping of [parseInt] all use. *)
Definition is_ws (c : N) : bool :=
  ((9 <=? c) && (c <=? 13) || (c =? 32) || (c =? 160) || (c =? 5760)
   || (8192 <=? c) && (c <=? 8202) || (c =? 8232) || (c =? 8233)
   || (c =? 8239) || (c =? 8287) || (c =? 12288) || (c =? 65279))%N.

Fixpoint trimStart (s : jsstring) : jsstring :=
  match s with
  | c :: r => if is_ws c then trimStart r else s
  | [] => []
  end.

Definition trimEnd (s : jsstring) : jsstring := rev (trimStart (rev s)).

(** [s.trim()] *)
Definition trim (s : jsstring) : jsstring := trimEnd (trimStart s).

(** [s.split(/\s+/)].  The scan of [String.prototype.split]: the regular
    expression is tried at each position; [\s+] matches there exactly when
    the code unit is white space, and then greedily takes the whole run.
    [cur] is the piece being read (reversed), [in_sep] says that the
    previous code unit belonged to a separator already taken. *)
Fixpoint split_scan (in_sep : bool) (cur : jsstring) (s : jsstring)
  : list jsstring :=
  match s with
  | [] => [rev cur]
  | c :: r =>
      if is_ws c then
        if in_sep then split_scan true cur r
        else rev cur :: split_scan true [] r
      else split_scan false (c :: cur) r
  end.

Definition split_ws (s : jsstring) : list jsstring := split_scan false [] s.

(** The words of a text, read off the text directly: the maximal runs of
    code units that are not white space.  This is the specification's
    "whitespace-separated tokens"; [split_ws] above is the source's
    computation. *)
Fixpoint tokens_from (cur : jsstring) (s : jsstring) : list jsstring :=
  match s with
  | [] => match cur with [] => [] | _ => [rev cur] end
  | c :: r =>
      if is_ws c then
        match cur with
        | [] => tokens_from [] r
        | _ => rev cur :: tokens_from [] r
        end
      else tokens_from (c :: cur) r
  end.

Definition tokens (s : jsstring) : list jsstring := tokens_from [] s.


(** Numbers as the handlers see them. *)
Inductive num : Type :=
| NaN
| Num (z : Z).

Definition num_gt0 (n : num) : bool :=
  match n with Num z => 0 <? z | NaN => false end.

(** [a !== b] on numbers: [NaN] differs from everything. *)
Definition num_strict_neq (a b : num) : bool :=
  match a, b with
  | Num x, Num y => negb (x =? y)
  | _, _ => true
  end.

Definition num_sub (a b : num) : num :=
  match a, b with
  | Num x, Num y => Num (x - y)
  | _, _ => NaN
  end.

Definition num_add (a b : num) : num :=
  match a, b with
  | Num x, Num y => Num (x + y)
  | _, _ => NaN
  end.

(** [n || d]: [NaN] and [0] are falsy. *)
Definition num_or (n : num) (d : Z) : num :=
  match n with
  | Num z => if z =? 0 then Num d else Num z
  | NaN => Num d
  end.

(** The value of a code unit as a digit, letters counting from ten. *)
Definition digit_val (c : N) : option Z :=
  if ((48 <=? c) && (c <=? 57))%N then Some (Z.of_N c - 48)
  else if ((97 <=? c) && (c <=? 122))%N then Some (Z.of_N c - 87)
  else if ((65 <=? c) && (c <=? 90))%N then Some (Z.of_N c - 55)
  else None.

(** The longest prefix of radix-[R] digits, as a number; [acc] is [None]
    until a digit has been read. *)
Fixpoint read_digits (R : Z) (acc : option Z) (s : jsstring) : option Z :=
  match s with
  | [] => acc
  | c :: r =>
      match digit_val c with
      | Some d =>
          if d <? R then
            read_digits R
              (Some (R * match acc with Some a => a | None => 0 end + d)) r
          else acc
      | None => acc
      end
  end.

(** [parseInt(v)] with no radix: [ToString], skip leading white space, an
    optional sign, an optional [0x]/[0X] prefix selecting radix 16, then
    the longest digit prefix; [NaN] when that prefix is empty. *)
Definition parseInt (v : option jsstring) : num :=
  let s := trimStart (match v with Some s => s | None => js "undefined" end) in
  let '(sign, s) :=
    match s with
    | c :: r => if (c =? 45)%N then (-1, r)
                else if (c =? 43)%N then (1, r) else (1, s)
    | [] => (1, s)
    end in
  let '(R, s) :=
    match s with
    | c0 :: c1 :: r =>
        if ((c0 =? 48) && ((c1 =? 120) || (c1 =? 88)))%N then (16, r)
        else (10, s)
    | _ => (10, s)
    end in
  match read_digits R None s with
  | Some z => Num (sign * z)
  | None => NaN
  end.

End JS.
Import JS.


(* ================================================================== *)
(** * The relational schema *)
(* ================================================================== *)

(** The tables and columns are those the SQL text of the handlers names.
    The file that creates them (column types, keys, defaults) is not among
    the sources; what the model takes from the data model of the
    specification instead is marked where it is used: integer and date
    parameters ([int_param], [date_param]), foreign keys ([insert_project],
    [insert_goal], [append_log]), the default of [log_date] ([insert_log]),
    unique user names ([update_user]) and the cascade of a user's deletion
    ([delete_user]). *)

Record User : Type := mkUser {
  user_id : Z;
  username : jsstring;
  email : option jsstring;
  first_name : option jsstring;
  last_name : option jsstring;
  permissions : jsstring;
  created_at : Z
}.

Record Security : Type := mkSecurity {
  sec_user_id : Z;
  password_text : jsstring;
  last_login : option Z
}.

Record Project : Type := mkProject {
  project_id : Z;
  proj_user_id : Z;
  title : option jsstring;
  genre : option jsstring;
  description : option jsstring;
  start_date : Z
}.

Record Goal : Type := mkGoal {
  goal_id : Z;
  goal_project_id : Z;
  goal_type : jsstring;
  target_value : Z;
  daily_target : Z;
  goal_start_date : Z;
  is_active : bool
}.

Record ProgressLog : Type := mkLog {
  log_project_id : Z;
  word_count : Z;
  total_words : Z;
  log_date : Z
}.

(** Tables keep their rows in insertion order. *)
Record Db : Type := mkDb {
  users : list User;
  securities : list Security;
  projects : list Project;
  goals : list Goal;
  progress_logs : list ProgressLog;
  project_seq : Z;
  goal_seq : Z
}.

Definition set_users (d : Db) (us : list User) : Db :=
  mkDb us (securities d) (projects d) (goals d) (progress_logs d)
       (project_seq d) (goal_seq d).
Definition set_securities (d : Db) (ss : list Security) : Db :=
  mkDb (users d) ss (projects d) (goals d) (progress_logs d)
       (project_seq d) (goal_seq d).
Definition set_projects (d : Db) (ps : list Project) : Db :=
  mkDb (users d) (securities d) ps (goals d) (progress_logs d)
       (project_seq d) (goal_seq d).
Definition set_goals (d : Db) (gs : list Goal) : Db :=
  mkDb (users d) (securities d) (projects d) gs (progress_logs d)
       (project_seq d) (goal_seq d).
Definition set_progress_logs (d : Db) (ls : list ProgressLog) : Db :=
  mkDb (users d) (securities d) (projects d) (goals d) ls
       (project_seq d) (goal_seq d).

Definition user_exists (d : Db) (u : Z) : bool :=
  existsb (fun x => user_id x =? u) (users d).
Definition project_exists (d : Db) (p : Z) : bool :=
  existsb (fun x => project_id x =? p) (projects d).

(** The ProgressLog rows of one project, in insertion order. *)
Definition logs_of (p : Z) (ls : list ProgressLog) : list ProgressLog :=
  filter (fun e => log_project_id e =? p) ls.

(** [ORDER BY log_date DESC LIMIT 1]: a row of greatest [log_date].  SQL
    leaves the choice among equal dates open; this picks the one stored
    first. *)
Fixpoint latest (ls : list ProgressLog) : option ProgressLog :=
  match ls with
  | [] => None
  | e :: r =>
      match latest r with
      | Some m => if log_date m <=? log_date e then Some e else Some m
      | None => Some e
      end
  end.

(** [COALESCE(pl.total_words, 0)] over the lateral subquery: the current
    word count of a project. *)
Definition currentTotal (p : Z) (d : Db) : Z :=
  match latest (logs_of p (progress_logs d)) with
  | Some e => total_words e
  | None => 0
  end.

Definition total_words_goal (p : Z) (g : Goal) : bool :=
  (goal_project_id g =? p) && is_active g
  && str_eqb (goal_type g) (js "total_words").

(** [ORDER BY key DESC], as a stable insertion sort. *)
Fixpoint insert_desc {A} (key : A -> Z) (x : A) (l : list A) : list A :=
  match l with
  | [] => [x]
  | y :: r => if key y <=? key x then x :: l else y :: insert_desc key x r
  end.

Definition order_by_desc {A} (key : A -> Z) (l : list A) : list A :=
  fold_right (insert_desc key) [] l.

(** [ORDER BY key], ascending. *)
Definition order_by {A} (key : A -> Z) (l : list A) : list A :=
  rev (order_by_desc key (rev l)).

(** [history(projectId)]: the entries of a project, oldest first. *)
Definition history (p : Z) (d : Db) : list ProgressLog :=
  order_by log_date (logs_of p (progress_logs d)).

(* ------------------------------------------------------------------ *)
(** ** Result rows *)

Record LoginRow : Type := mkLoginRow {
  lr_user_id : Z;
  lr_username : jsstring;
  lr_first_name : option jsstring;
  lr_permissions : jsstring;
  lr_password_text : jsstring
}.

(** A row of the project listing: the project, its current word count,
    and the target of its active goal or the presentation defaults. *)
Record Summary : Type := mkSummary {
  sm_id : Z;
  sm_title : option jsstring;
  sm_genre : option jsstring;
  sm_description : option jsstring;
  sm_start_date : Z;
  current_words : Z;
  target_words : Z;
  daily_goal : Z;
  sm_goal_id : option Z
}.

Record UserRow : Type := mkUserRow {
  ur_user : User;
  ur_last_login : option Z
}.

Definition summaries_of_project (d : Db) (p : Project) : list Summary :=
  let cw := currentTotal (project_id p) d in
  let row t dg gid :=
    mkSummary (project_id p) (title p) (genre p) (description p)
              (start_date p) cw t dg gid in
  match filter (total_words_goal (project_id p)) (goals d) with
  | [] => [row 50000 1000 None]
  | gs => map (fun g => row (target_value g) (daily_target g)
                            (Some (goal_id g))) gs
  end.

(** Lower case on the ASCII letters: SQL [LOWER], and the router's match
    without regard to case, as far as those letters go. *)
Definition lower_ascii (s : jsstring) : jsstring :=
  map (fun c => if ((65 <=? c) && (c <=? 90))%N then (c + 32)%N else c) s.

(** SQL [LIKE]: [%] any run, [_] any one character, backslash escapes. *)
Fixpoint sql_like (pat s : jsstring) : bool :=
  match pat with
  | [] => match s with [] => true | _ => false end
  | c :: pat' =>
      if (c =? 37)%N then
        (fix any (t : jsstring) : bool :=
           sql_like pat' t
           || match t with [] => false | _ :: t' => any t' end) s
      else if (c =? 95)%N then
        match s with _ :: s' => sql_like pat' s' | [] => false end
      else if (c =? 92)%N then
        match pat', s with
        | e :: pat'', x :: s' => (x =? e)%N && sql_like pat'' s'
        | _, _ => false
        end
      else
        match s with x :: s' => (x =? c)%N && sql_like pat' s' | [] => false end
  end.

Definition like_lower (pat : jsstring) (col : option jsstring) : bool :=
  match col with
  | Some s => sql_like (lower_ascii pat) (lower_ascii s)
  | None => false
  end.

(* ================================================================== *)
(** * The database client *)
(* ================================================================== *)

(** The statements of the source, each with those of its parameters that
    select, number or date rows.  [issued] lists them in the order the
    server sent them. *)
Inductive Sql : Type :=
| SelectLogin (username : option jsstring)
| UpdateLastLogin (uid : Z)
| SelectSummaries (uid : option Z)
| SearchSummaries (uid : option Z) (pattern : jsstring)
| InsertProject (uid : option Z) (startDate : option Z)
| InsertGoal (pid : Z) (target daily : num) (startDate : option Z)
| InsertLogDated (pid : Z) (count : num) (date : option Z)
| SelectSummary (pid : num) (uid : option Z)
| UpdateProject (pid : num) (uid : option Z) (startDate : option Z)
| UpdateGoal (target daily : num) (pid : num)
| SelectLastLog (pid : num)
| InsertLog (pid : num) (count total : num)
| DeleteLogs (pid : num)
| DeleteGoals (pid : num)
| DeleteProject (pid : num) (uid : option Z)
| SelectUsers
| SelectUser (uid : num)
| UpdateUser (uid : num)
| DeleteUser (uid : num).

Record World : Type := mkWorld {
  db : Db;
  issued : list Sql
}.

(** A computation that may throw ([None]); what it wrote before throwing
    stays written: the source opens no transaction. *)
Definition M (A : Type) : Type := World -> option A * World.

(** A computation that always completes: a handler with its [catch]. *)
Definition T (A : Type) : Type := World -> A * World.

Definition ret {A} (a : A) : M A := fun w => (Some a, w).

Definition bind {A B} (m : M A) (k : A -> M B) : M B :=
  fun w =>
    match m w with
    | (Some a, w') => k a w'
    | (None, w') => (None, w')
    end.

Notation "x <- m ;; k" := (bind m (fun x => k))
  (at level 61, m at next level, right associativity).
Notation "m ;;; k" := (bind m (fun _ => k))
  (at level 61, right associativity).

(** [try { body } catch (err) { handler }] *)
Definition try_catch {A} (body : M A) (handler : A) : T A :=
  fun w =>
    match body w with
    | (Some a, w') => (a, w')
    | (None, w') => (handler, w')
    end.

(** [await db.query(text, params)]: the statement is recorded, then run;
    [None] is a rejected promise. *)
Definition query {A} (q : Sql) (run : Db -> option (A * Db)) : M A :=
  fun w =>
    let tr := issued w ++ [q] in
    match run (db w) with
    | Some (a, d) => (Some a, mkWorld d tr)
    | None => (None, mkWorld (db w) tr)
    end.

(** A read: the database is left as it is. *)
Definition reading {A} (rows : Db -> option A) : Db -> option (A * Db) :=
  fun d => option_map (fun a => (a, d)) (rows d).

(** A write returning nothing. *)
Definition writing (f : Db -> option Db) : Db -> option (unit * Db) :=
  fun d => option_map (fun d' => (tt, d')) (f d).

(** Modelled from the spec: the column types, which the sources do not
    declare.  Ids, word counts and targets are integers, so a statement
    binding [NaN] to one of them is rejected by the database. *)
Definition int_param {A} (n : num) (k : Z -> option A) : option A :=
  match n with
  | Num z => k z
  | NaN => None
  end.

(** Modelled from the spec: the column types, which the sources do not
    declare.  Every project, goal and entry has its date; a statement
    without one is rejected. *)
Definition date_param {A} (t : option Z) (k : Z -> option A) : option A :=
  match t with
  | Some z => k z
  | None => None
  end.

Definition uid_is (uid : option Z) (u : Z) : bool :=
  match uid with
  | Some x => x =? u
  | None => false
  end.

Module Query.

(** [SELECT ... FROM "User" u INNER JOIN Security s ON u.user_id =
    s.user_id WHERE u.username = $1] *)
Definition login_rows (name : option jsstring) (d : Db) : list LoginRow :=
  match name with
  | None => []
  | Some n =>
      flat_map
        (fun u =>
           if str_eqb (username u) n then
             map (fun s => mkLoginRow (user_id u) (username u) (first_name u)
                                      (permissions u) (password_text s))
                 (filter (fun s => sec_user_id s =? user_id u) (securities d))
           else [])
        (users d)
  end.

Definition select_login (name : option jsstring) : M (list LoginRow) :=
  query (SelectLogin name) (reading (fun d => Some (login_rows name d))).

(** [UPDATE Security SET last_login = CURRENT_TIMESTAMP WHERE user_id = $1] *)
Definition update_last_login (now : Z) (uid : Z) : M unit :=
  query (UpdateLastLogin uid)
    (writing (fun d =>
       Some (set_securities d
         (map (fun s => if sec_user_id s =? uid
                        then mkSecurity (sec_user_id s) (password_text s) (Some now)
                        else s)
              (securities d))))).

(** The project listing of the dashboard and statistics pages:
    [... WHERE p.user_id = $1 ORDER BY p.start_date DESC]. *)
Definition summaries (uid : option Z) (d : Db) : list Summary :=
  flat_map (summaries_of_project d)
    (order_by_desc start_date
       (filter (fun p => uid_is uid (proj_user_id p)) (projects d))).

Definition select_summaries (uid : option Z) : M (list Summary) :=
  query (SelectSummaries uid) (reading (fun d => Some (summaries uid d))).

(** [... WHERE p.user_id = $1 AND (LOWER(p.title) LIKE LOWER($2) OR
    LOWER(p.genre) LIKE LOWER($2)) ORDER BY p.start_date DESC] *)
Definition search_summaries (uid : option Z) (pat : jsstring)
  : M (list Summary) :=
  query (SearchSummaries uid pat)
    (reading (fun d =>
       Some (flat_map (summaries_of_project d)
         (order_by_desc start_date
            (filter (fun p => uid_is uid (proj_user_id p)
                              && (like_lower pat (title p)
                                  || like_lower pat (genre p)))
                    (projects d)))))).

(** [... WHERE p.project_id = $1 AND p.user_id = $2] *)
Definition summary_rows (p : Z) (uid : option Z) (d : Db) : list Summary :=
  flat_map (summaries_of_project d)
    (filter (fun x => (project_id x =? p) && uid_is uid (proj_user_id x))
            (projects d)).

Definition select_summary (pid : num) (uid : option Z) : M (list Summary) :=
  query (SelectSummary pid uid)
    (reading (fun d => int_param pid (fun p => Some (summary_rows p uid d)))).

(** [INSERT INTO Project (user_id, title, genre, description, start_date)
    VALUES ($1, $2, $3, $4, $5) RETURNING project_id].  The id is the next
    of the table's sequence.  From the specification ("belongs to exactly
    one User"): the owner must exist. *)
Definition insert_project (uid : option Z) (t g ds : option jsstring)
    (startDate : option Z) : M Z :=
  query (InsertProject uid startDate)
    (fun d =>
       date_param startDate (fun sd =>
         match uid with
         | Some u =>
             if user_exists d u then
               let id := project_seq d in
               Some (id,
                     mkDb (users d) (securities d)
                          (projects d ++ [mkProject id u t g ds sd])
                          (goals d) (progress_logs d) (id + 1) (goal_seq d))
             else None
         | None => None
         end)).

(** [INSERT INTO Goal (project_id, goal_type, target_value, daily_target,
    start_date, is_active) VALUES ($1, 'total_words', $2, $3, $4, true)].
    From the specification ("belongs to exactly one Project"): the project
    must exist. *)
Definition insert_goal (pid : Z) (target daily : num) (startDate : option Z)
  : M unit :=
  query (InsertGoal pid target daily startDate)
    (writing (fun d =>
       int_param target (fun tv =>
       int_param daily (fun dt =>
       date_param startDate (fun sd =>
         if project_exists d pid then
           Some (mkDb (users d) (securities d) (projects d)
                      (goals d ++ [mkGoal (goal_seq d) pid (js "total_words")
                                          tv dt sd true])
                      (progress_logs d) (project_seq d) (goal_seq d + 1))
         else None))))).

(** Appending a ProgressLog row.  From the specification ("belongs to
    exactly one Project"): the project must exist. *)
Definition append_log (p wc tw t : Z) (d : Db) : option Db :=
  if project_exists d p then
    Some (set_progress_logs d (progress_logs d ++ [mkLog p wc tw t]))
  else None.

(** [INSERT INTO ProgressLog (project_id, word_count, total_words, log_date)
    VALUES ($1, $2, $2, $3)] *)
Definition insert_log_dated (pid : Z) (count : num) (date : option Z)
  : M unit :=
  query (InsertLogDated pid count date)
    (writing (fun d =>
       int_param count (fun c =>
       date_param date (fun t => append_log pid c c t d)))).

(** [INSERT INTO ProgressLog (project_id, word_count, total_words,
    log_date) VALUES ($1, $2, $3, CURRENT_TIMESTAMP)] of the word-logging
    handler, and the two inserts of the edit handler, which name no
    [log_date]: from the specification (every entry has its timestamp,
    "timestamp = now") the column defaults to the current timestamp, so
    the row is stamped [now] in all three. *)
Definition insert_log (now : Z) (pid : num) (count total : num) : M unit :=
  query (InsertLog pid count total)
    (writing (fun d =>
       int_param pid (fun p =>
       int_param count (fun c =>
       int_param total (fun t => append_log p c t now d))))).

(** [SELECT total_words FROM ProgressLog WHERE project_id = $1 ORDER BY
    log_date DESC LIMIT 1] *)
Definition select_last_log (pid : num) : M (list Z) :=
  query (SelectLastLog pid)
    (reading (fun d =>
       int_param pid (fun p =>
         Some match latest (logs_of p (progress_logs d)) with
              | Some e => [total_words e]
              | None => []
              end))).

(** [UPDATE Project SET title = $1, genre = $2, description = $3,
    start_date = $4 WHERE project_id = $5 AND user_id = $6] *)
Definition update_project (t g ds : option jsstring) (startDate : option Z)
    (pid : num) (uid : option Z) : M unit :=
  query (UpdateProject pid uid startDate)
    (writing (fun d =>
       date_param startDate (fun sd =>
       int_param pid (fun p =>
         Some (set_projects d
           (map (fun x =>
                   if (project_id x =? p) && uid_is uid (proj_user_id x)
                   then mkProject (project_id x) (proj_user_id x) t g ds sd
                   else x)
                (projects d))))))).

(** [UPDATE Goal SET target_value = $1, daily_target = $2 WHERE project_id
    = $3 AND goal_type = 'total_words' AND is_active = true] *)
Definition update_goal (target daily : num) (pid : num) : M unit :=
  query (UpdateGoal target daily pid)
    (writing (fun d =>
       int_param target (fun tv =>
       int_param daily (fun dt =>
       int_param pid (fun p =>
         Some (set_goals d
           (map (fun g =>
                   if total_words_goal p g
                   then mkGoal (goal_id g) (goal_project_id g) (goal_type g)
                               tv dt (goal_start_date g) (is_active g)
                   else g)
                (goals d)))))))).

(** [DELETE FROM ProgressLog WHERE project_id = $1] *)
Definition delete_logs (pid : num) : M unit :=
  query (DeleteLogs pid)
    (writing (fun d =>
       int_param pid (fun p =>
         Some (set_progress_logs d
           (filter (fun e => negb (log_project_id e =? p))
                   (progress_logs d)))))).

(** [DELETE FROM Goal WHERE project_id = $1] *)
Definition delete_goals (pid : num) : M unit :=
  query (DeleteGoals pid)
    (writing (fun d =>
       int_param pid (fun p =>
         Some (set_goals d
           (filter (fun g => negb (goal_project_id g =? p)) (goals d)))))).

(** [DELETE FROM Project WHERE project_id = $1 AND user_id = $2].  The
    handler has deleted the rows that reference the project just before. *)
Definition delete_project (pid : num) (uid : option Z) : M unit :=
  query (DeleteProject pid uid)
    (writing (fun d =>
       int_param pid (fun p =>
         Some (set_projects d
           (filter (fun x => negb ((project_id x =? p)
                                   && uid_is uid (proj_user_id x)))
                   (projects d)))))).

(** [SELECT ... FROM "User" u LEFT JOIN Security s ON u.user_id =
    s.user_id ORDER BY u.created_at DESC] *)
Definition user_rows (d : Db) : list UserRow :=
  flat_map
    (fun u =>
       match filter (fun s => sec_user_id s =? user_id u) (securities d) with
       | [] => [mkUserRow u None]
       | ss => map (fun s => mkUserRow u (last_login s)) ss
       end)
    (order_by_desc created_at (users d)).

Definition select_users : M (list UserRow) :=
  query SelectUsers (reading (fun d => Some (user_rows d))).

(** [SELECT ... FROM "User" u WHERE u.user_id = $1] *)
Definition select_user (uid : num) : M (list User) :=
  query (SelectUser uid)
    (reading (fun d =>
       int_param uid (fun u =>
         Some (filter (fun x => user_id x =? u) (users d))))).

(** [UPDATE "User" SET username = $1, email = $2, first_name = $3,
    last_name = $4, permissions = $5 WHERE user_id = $6].  From the
    specification: a user has a name and a role, and names are unique. *)
Definition update_user (name em fn ln perm : option jsstring) (uid : num)
  : M unit :=
  query (UpdateUser uid)
    (writing (fun d =>
       int_param uid (fun u =>
         match name, perm with
         | Some n, Some pm =>
             if existsb (fun x => user_id x =? u) (users d)
                && existsb (fun x => negb (user_id x =? u)
                                     && str_eqb (username x) n) (users d)
             then None
             else
               Some (set_users d
                 (map (fun x =>
                         if user_id x =? u
                         then mkUser (user_id x) n em fn ln pm (created_at x)
                         else x)
                      (users d)))
         | _, _ => None
         end))).

(** [DELETE FROM "User" WHERE user_id = $1].  From the specification
    ("cascade from owner deletion"): the user's credentials, projects, and
    their goals and progress entries go with the row. *)
Definition delete_user (uid : num) : M unit :=
  query (DeleteUser uid)
    (writing (fun d =>
       int_param uid (fun u =>
         let owned p :=
           existsb (fun x => (project_id x =? p) && (proj_user_id x =? u))
                   (projects d) in
         Some (mkDb
                 (filter (fun x => negb (user_id x =? u)) (users d))
                 (filter (fun s => negb (sec_user_id s =? u)) (securities d))
                 (filter (fun x => negb (proj_user_id x =? u)) (projects d))
                 (filter (fun g => negb (owned (goal_project_id g))) (goals d))
                 (filter (fun e => negb (owned (log_project_id e)))
                         (progress_logs d))
                 (project_seq d) (goal_seq d))))).

End Query.

(* ================================================================== *)
(** * Requests, sessions and responses *)
(* ================================================================== *)

Inductive Method : Type := GET | POST | OTHER.

(** [req.body]: the fields of a submitted form, each a string.
    [startDate] is held as the instant the database reads from the
    submitted date text ([None] when it reads none): that conversion is
    PostgreSQL's, not the server's. *)
Record Body : Type := mkBody {
  fields : list (string * jsstring);
  startDate : option Z
}.

Record Request : Type := mkRequest {
  method : Method;
  path : jsstring;
  body : Body;
  query_q : option jsstring
}.

(** [req.body.name]: [undefined] when the form has no such field. *)
Fixpoint lookup (name : string) (fs : list (string * jsstring))
  : option jsstring :=
  match fs with
  | [] => None
  | (k, v) :: r => if String.eqb k name then Some v else lookup name r
  end.

Definition field (name : string) (req : Request) : option jsstring :=
  lookup name (fields (body req)).

(** [req.session] *)
Record Session : Type := mkSession {
  isLoggedIn : bool;
  sess_username : option jsstring;
  userId : option Z;
  firstName : option jsstring;
  sess_permissions : option jsstring
}.

(** A session before login, and after [req.session.destroy]. *)
Definition anonymous : Session := mkSession false None None None None.

Inductive View : Type :=
| login_view (error_message : option string)
| dashboard_view (username : option jsstring) (projects : list Summary)
                 (searchTerm : option jsstring) (isManager : bool)
| add_project_view (username : option jsstring)
| edit_project_view (username : option jsstring) (project : Summary)
| log_words_view (username : option jsstring) (project : option Summary)
                 (error_message success_message : option string)
| stats_view (username : option jsstring) (projects : list (option jsstring))
             (totalWords goalWords : list Z)
| manage_users_view (username : option jsstring) (users : list UserRow)
| edit_user_view (username : option jsstring) (user : User).

Inductive Response : Type :=
| Render (v : View)
| Redirect (url : string)
| Send (status : Z) (text : string)
| NotFound.

(** The login view with the message "Invalid username or password". *)
Definition refused : Response :=
  Render (login_view (Some "Invalid username or password"%string)).

(* ------------------------------------------------------------------ *)
(** ** Routing *)

Inductive Route : Type :=
| GET_root
| POST_login
| GET_dashboard
| GET_search
| GET_add
| POST_add
| GET_edit (id : jsstring)
| POST_edit (id : jsstring)
| POST_delete (id : jsstring)
| GET_log_words (id : jsstring)
| POST_log_words (id : jsstring)
| GET_stats
| GET_manage_users
| GET_edit_user (id : jsstring)
| POST_edit_user (id : jsstring)
| POST_delete_user (id : jsstring)
| GET_logout.

(** The pieces of a path between its slashes. *)
Fixpoint segments_from (cur : jsstring) (s : jsstring) : list jsstring :=
  match s with
  | [] => [rev cur]
  | c :: r =>
      if (c =? 47)%N then rev cur :: segments_from [] r
      else segments_from (c :: cur) r
  end.

(** Route literals match without regard to letter case. *)
Definition seg_is (lit : string) (seg : jsstring) : bool :=
  str_eqb (lower_ascii seg) (js lit).

(** One trailing slash is optional. *)
Definition strip_trailing (segs : list jsstring) : list jsstring :=
  match rev segs with
  | [] :: ((_ :: _) as r) => rev r
  | _ => segs
  end.

(** The route table, in the order the source registers it. *)
Definition route_of (m : Method) (p : jsstring) : option Route :=
  match strip_trailing (segments_from [] p) with
  | [[]] =>
      match m with GET => Some GET_root | _ => None end
  | [[]; a] =>
      match m with
      | GET =>
          if seg_is "dashboard" a then Some GET_dashboard
          else if seg_is "search" a then Some GET_search
          else if seg_is "add" a then Some GET_add
          else if seg_is "stats" a then Some GET_stats
          else if seg_is "manage-users" a then Some GET_manage_users
          else if seg_is "logout" a then Some GET_logout
          else None
      | POST =>
          if seg_is "login" a then Some POST_login
          else if seg_is "add" a then Some POST_add
          else None
      | OTHER => None
      end
  | [[]; a; (_ :: _) as id] =>
      match m with
      | GET =>
          if seg_is "edit" a then Some (GET_edit id)
          else if seg_is "log-words" a then Some (GET_log_words id)
          else if seg_is "edit-user" a then Some (GET_edit_user id)
          else None
      | POST =>
          if seg_is "edit" a then Some (POST_edit id)
          else if seg_is "delete" a then Some (POST_delete id)
          else if seg_is "log-words" a then Some (POST_log_words id)
          else if seg_is "edit-user" a then Some (POST_edit_user id)
          else if seg_is "delete-user" a then Some (POST_delete_user id)
          else None
      | OTHER => None
      end
  | _ => None
  end.

(* ================================================================== *)
(** * Middleware and route handlers *)
(* ================================================================== *)

Definition pure {A} (a : A) : T A := fun w => (a, w).

Definition openPaths : list jsstring := [js "/"; js "/login"; js "/logout"].

(** [list.includes(p)] *)
Definition includes (l : list jsstring) (p : jsstring) : bool :=
  existsb (str_eqb p) l.

(** [req.session.permissions === 'M'] *)
Definition isManager (sess : Session) : bool :=
  match sess_permissions sess with
  | Some p => str_eqb p (js "M")
  | None => false
  end.

(** [requireManager] placed before a handler. *)
Definition requireManager (sess : Session) (next : T Response) : T Response :=
  if isManager sess then next
  else pure (Send 403 "Access denied. Manager permissions required.").

(** [v || null] *)
Definition or_null (v : option jsstring) : option jsstring :=
  if truthy v then v else None.

(** [password === user.password_text] *)
Definition validPassword (password : option jsstring) (stored : jsstring)
  : bool :=
  match password with
  | Some p => str_eqb p stored
  | None => false
  end.

(** [userId === req.session.userId]: a number against a number or
    [undefined]; [NaN] equals nothing. *)
Definition strict_eq (n : num) (u : option Z) : bool :=
  match n, u with
  | Num a, Some b => a =? b
  | _, _ => false
  end.

(** The word count of a submission, as [POST /log-words/:id] derives it:
    the manual count when that is positive, else the number of pieces of
    the trimmed text split at white space, else zero. *)
Definition wordCount (text manual_count : option jsstring) : Z :=
  if truthy manual_count && num_gt0 (parseInt manual_count) then
    match parseInt manual_count with Num z => z | NaN => 0 end
  else if truthy text && truthy (option_map trim text) then
    match text with
    | Some t => Z.of_nat (List.length (split_ws (trim t)))
    | None => 0
    end
  else 0.

Module Handlers.
Import Query.

Section Handler.

(** The instant at which the request's statements run, the request and
    its session. *)
Variable now : Z.
Variable req : Request.
Variable sess : Session.

(** [app.get('/')] *)
Definition get_root : T Response := pure (Render (login_view None)).

(** [app.post('/login')] *)
Definition post_login : T (Response * Session) :=
  let name := field "username" req in
  let password := field "password" req in
  try_catch
    (result <- select_login name ;;
     match result with
     | [] =>
         ret (Render (login_view (Some "Invalid username or password"%string)),
              sess)
     | user :: _ =>
         if negb (validPassword password (lr_password_text user)) then
           ret (Render (login_view (Some "Invalid username or password"%string)),
                sess)
         else
           update_last_login now (lr_user_id user) ;;;
           ret (Redirect "/dashboard",
                mkSession true (Some (lr_username user))
                          (Some (lr_user_id user)) (lr_first_name user)
                          (Some (lr_permissions user)))
     end)
    (Render (login_view (Some "An error occurred. Please try again."%string)), sess).

(** [app.get('/dashboard')] *)
Definition get_dashboard : T Response :=
  try_catch
    (rows <- select_summaries (userId sess) ;;
     ret (Render (dashboard_view (sess_username sess) rows None
                                 (isManager sess))))
    (Render (dashboard_view (sess_username sess) [] None (isManager sess))).

(** [app.get('/search')] *)
Definition get_search : T Response :=
  let searchTerm := if truthy (query_q req)
                    then match query_q req with Some q => q | None => [] end
                    else [] in
  try_catch
    (rows <- search_summaries (userId sess) (js "%" ++ searchTerm ++ js "%") ;;
     ret (Render (dashboard_view (sess_username sess) rows (Some searchTerm)
                                 (isManager sess))))
    (Render (dashboard_view (sess_username sess) [] (Some searchTerm)
                            (isManager sess))).

(** [app.get('/add')] *)
Definition get_add : T Response :=
  pure (Render (add_project_view (sess_username sess))).

(** [app.post('/add')] *)
Definition post_add : T Response :=
  let targetWords := field "targetWords" req in
  let currentWords := field "currentWords" req in
  let dailyGoal := field "dailyGoal" req in
  try_catch
    (projectId <- insert_project (userId sess) (field "title" req)
                    (field "genre" req) (or_null (field "description" req))
                    (startDate (body req)) ;;
     insert_goal projectId (parseInt targetWords)
                 (num_or (parseInt dailyGoal) 1000) (startDate (body req)) ;;;
     (if num_gt0 (parseInt currentWords)
      then insert_log_dated projectId (parseInt currentWords)
                            (startDate (body req))
      else ret tt) ;;;
     ret (Redirect "/dashboard"))
    (Redirect "/dashboard").

(** [app.get('/edit/:id')]; the date is shown as stored. *)
Definition get_edit (id : jsstring) : T Response :=
  let projectId := parseInt (Some id) in
  try_catch
    (result <- select_summary projectId (userId sess) ;;
     match result with
     | [] => ret (Redirect "/dashboard")
     | project :: _ =>
         ret (Render (edit_project_view (sess_username sess) project))
     end)
    (Redirect "/dashboard").

(** [app.post('/edit/:id')] *)
Definition post_edit (id : jsstring) : T Response :=
  let projectId := parseInt (Some id) in
  let targetWords := field "targetWords" req in
  let currentWords := field "currentWords" req in
  let dailyGoal := field "dailyGoal" req in
  try_catch
    (update_project (field "title" req) (field "genre" req)
                    (or_null (field "description" req))
                    (startDate (body req)) projectId (userId sess) ;;;
     update_goal (parseInt targetWords) (num_or (parseInt dailyGoal) 1000)
                 projectId ;;;
     let currentTotal := parseInt currentWords in
     lastLog <- select_last_log projectId ;;
     match lastLog with
     | [] =>
         if num_gt0 currentTotal
         then insert_log now projectId currentTotal currentTotal
         else ret tt
     | total_words :: _ =>
         if num_strict_neq (Num total_words) currentTotal then
           let diff := num_sub currentTotal (Num total_words) in
           insert_log now projectId diff currentTotal
         else ret tt
     end ;;;
     ret (Redirect "/dashboard"))
    (Redirect "/dashboard").

(** [app.post('/delete/:id')] *)
Definition post_delete (id : jsstring) : T Response :=
  let projectId := parseInt (Some id) in
  try_catch
    (delete_logs projectId ;;;
     delete_goals projectId ;;;
     delete_project projectId (userId sess) ;;;
     ret (Redirect "/dashboard"))
    (Redirect "/dashboard").

(** [app.get('/log-words/:id')] *)
Definition get_log_words (id : jsstring) : T Response :=
  let projectId := parseInt (Some id) in
  try_catch
    (result <- select_summary projectId (userId sess) ;;
     match result with
     | [] => ret (Redirect "/dashboard")
     | project :: _ =>
         ret (Render (log_words_view (sess_username sess) (Some project)
                                     None None))
     end)
    (Redirect "/dashboard").

(** [app.post('/log-words/:id')] *)
Definition post_log_words (id : jsstring) : T Response :=
  let projectId := parseInt (Some id) in
  let text := field "text" req in
  let manual_count := field "manual_count" req in
  try_catch
    (let wordCount := wordCount text manual_count in
     if wordCount =? 0 then
       project <- select_summary projectId (userId sess) ;;
       ret (Render (log_words_view (sess_username sess) (hd_error project)
                      (Some "Please enter text or a word count"%string) None))
     else
       lastLog <- select_last_log projectId ;;
       let previousTotal :=
         match lastLog with total_words :: _ => total_words | [] => 0 end in
       let newTotal := previousTotal + wordCount in
       insert_log now projectId (Num wordCount) (Num newTotal) ;;;
       ret (Redirect "/dashboard"))
    (Redirect "/dashboard").

(** [app.get('/stats')] *)
Definition get_stats : T Response :=
  try_catch
    (rows <- select_summaries (userId sess) ;;
     ret (Render (stats_view (sess_username sess) (map sm_title rows)
                             (map current_words rows)
                             (map target_words rows))))
    (Render (stats_view (sess_username sess) [] [] [])).

(** [app.get('/manage-users', requireManager, ...)] *)
Definition get_manage_users : T Response :=
  requireManager sess
    (try_catch
       (rows <- select_users ;;
        ret (Render (manage_users_view (sess_username sess) rows)))
       (Render (manage_users_view (sess_username sess) []))).

(** [app.get('/edit-user/:id', requireManager, ...)]; [targetId] is the
    source's local [userId]. *)
Definition get_edit_user (id : jsstring) : T Response :=
  let targetId := parseInt (Some id) in
  requireManager sess
    (try_catch
       (result <- select_user targetId ;;
        match result with
        | [] => ret (Redirect "/manage-users")
        | user :: _ =>
            ret (Render (edit_user_view (sess_username sess) user))
        end)
       (Redirect "/manage-users")).

(** [app.post('/edit-user/:id', requireManager, ...)] *)
Definition post_edit_user (id : jsstring) : T Response :=
  let targetId := parseInt (Some id) in
  requireManager sess
    (try_catch
       (update_user (field "username" req) (field "email" req)
                    (field "first_name" req) (field "last_name" req)
                    (field "permissions" req) targetId ;;;
        ret (Redirect "/manage-users"))
       (Redirect "/manage-users")).

(** [app.post('/delete-user/:id', requireManager, ...)] *)
Definition post_delete_user (id : jsstring) : T Response :=
  let targetId := parseInt (Some id) in
  requireManager sess
    (if strict_eq targetId (userId sess) then
       pure (Send 400 "You cannot delete your own account")
     else
       try_catch
         (delete_user targetId ;;;
          ret (Redirect "/manage-users"))
         (Redirect "/manage-users")).

End Handler.
End Handlers.

(* ================================================================== *)
(** * The application *)
(* ================================================================== *)

Import Handlers.

(** A handler that leaves the session as it is. *)
Definition keep (sess : Session) (h : T Response) : T (Response * Session) :=
  fun w => let '(r, w') := h w in ((r, sess), w').

(** The routes behind the authentication middleware. *)
Definition router (now : Z) (req : Request) (sess : Session)
  : T (Response * Session) :=
  match route_of (method req) (path req) with
  | Some GET_root => keep sess get_root
  | Some POST_login => post_login now req sess
  | Some GET_dashboard => keep sess (get_dashboard sess)
  | Some GET_search => keep sess (get_search req sess)
  | Some GET_add => keep sess (get_add sess)
  | Some POST_add => keep sess (post_add req sess)
  | Some (GET_edit id) => keep sess (get_edit sess id)
  | Some (POST_edit id) => keep sess (post_edit now req sess id)
  | Some (POST_delete id) => keep sess (post_delete sess id)
  | Some (GET_log_words id) => keep sess (get_log_words sess id)
  | Some (POST_log_words id) => keep sess (post_log_words now req sess id)
  | Some GET_stats => keep sess (get_stats sess)
  | Some GET_manage_users => keep sess (get_manage_users sess)
  | Some (GET_edit_user id) => keep sess (get_edit_user sess id)
  | Some (POST_edit_user id) => keep sess (post_edit_user req sess id)
  | Some (POST_delete_user id) => keep sess (post_delete_user sess id)
  | Some GET_logout => pure (Redirect "/", anonymous)
  | None => pure (NotFound, sess)
  end.

(** The authentication middleware in front of the routes:
    [if (openPaths.includes(req.path)) return next();
     if (req.session.isLoggedIn) return next();
     res.render('login', ...)]. *)
Definition app (now : Z) (req : Request) (sess : Session)
  : T (Response * Session) :=
  if includes openPaths (path req) then router now req sess
  else if isLoggedIn sess then router now req sess
  else pure (Render (login_view (Some "Please log in to access this page"%string)),
             sess).

(** One client sending requests one after the other, each at its instant;
    the responses come back in order. *)
Fixpoint serve (reqs : list (Z * Request)) (sess : Session) (w : World)
  : list Response * Session * World :=
  match reqs with
  | [] => ([], sess, w)
  | (now, req) :: rest =>
      let '((r, sess'), w') := app now req sess w in
      let '(rs, sess'', w'') := serve rest sess' w' in
      (r :: rs, sess'', w'')
  end.


(* ================================================================== *)
(** * Progress accounting: the ledger properties *)
(* ================================================================== *)

(** Each entry's running total is the previous entry's running total plus
    its own delta, the first one starting from [prev]. *)
Fixpoint chained (prev : Z) (es : list ProgressLog) : bool :=
  match es with
  | [] => true
  | e :: r => (total_words e =? prev + word_count e) && chained (total_words e) r
  end.

(** The entries are in timestamp order, no two at one instant. *)
Fixpoint dated (es : list ProgressLog) : bool :=
  match es with
  | e :: ((e' :: _) as r) => (log_date e <? log_date e') && dated r
  | _ => true
  end.

(** The ledger invariant of a project: its entries, as appended, are in
    timestamp order and their running totals chain from zero. *)
Definition ledger_consistent (p : Z) (d : Db) : bool :=
  let es := logs_of p (progress_logs d) in
  dated es && chained 0 es.


(** The number of active "total words" goals of a project. *)
Definition active_goals (p : Z) (d : Db) : nat :=
  List.length (filter (total_words_goal p) (goals d)).








(** The running total at the end of a ledger that starts from [prev]. *)
Fixpoint last_total (prev : Z) (es : list ProgressLog) : Z :=
  match es with
  | [] => prev
  | e :: r => last_total (total_words e) r
  end.

(** The ledgers at instant [t]: project ids come from the sequence, every
    entry belongs to such an id and is older than [t], and every project's
    ledger is consistent. *)
Definition ledger_invariant (t : Z) (d : Db) : Prop :=
  (forall x, In x (projects d) -> project_id x < project_seq d)
  /\ (forall e, In e (progress_logs d) ->
        log_project_id e < project_seq d /\ log_date e < t)
  /\ (forall p, ledger_consistent p d = true).

(** Inside [POST /add]: the project [id] has been created and has no entry
    yet. *)
Definition awaiting_entry (id t : Z) (d : Db) : Prop :=
  ledger_invariant t d /\ logs_of id (progress_logs d) = [].

(** The start date a [POST /add] request submits lies before the instant
    of the request. *)
Definition timely (now : Z) (req : Request) : Prop :=
  forall sd, route_of (method req) (path req) = Some POST_add ->
             startDate (body req) = Some sd -> sd < now.

(* ------------------------------------------------------------------ *)
(** ** Goals *)

(** Every Goal row belongs to a project id the sequence has handed out. *)
Definition goals_issued (d : Db) : Prop :=
  forall g, In g (goals d) -> goal_project_id g < project_seq d.

(** No project has two active "total words" goals. *)
Definition one_active_goal (d : Db) : Prop :=
  forall p, (active_goals p d <= 1)%nat.

Definition goal_invariant (d : Db) : Prop :=
  goals_issued d /\ one_active_goal d.

(** Between the two inserts of [POST /add]: the project [id] has been
    created and has no goal yet. *)
Definition awaiting_goal (id : Z) (d : Db) : Prop :=
  (forall g, In g (goals d) -> goal_project_id g < id)
  /\ id < project_seq d
  /\ one_active_goal d.

(* ------------------------------------------------------------------ *)
(** ** Ownership *)

(** The Project rows that do not belong to user [u]. *)
Definition others_projects (u : Z) (d : Db) : list Project :=
  filter (fun x => negb (proj_user_id x =? u)) (projects d).

Definition others_kept (u : Z) (ps : list Project) (d : Db) : Prop :=
  others_projects u d = ps.

(* ------------------------------------------------------------------ *)
(** ** Triples for the database monad *)

(** From a database satisfying [P], [m] either returns [a] in a database
    satisfying [Q a], or throws in a database satisfying [E]. *)
Definition triple {A} (P : Db -> Prop) (m : M A) (Q : A -> Db -> Prop)
    (E : Db -> Prop) : Prop :=
  forall w, P (db w) ->
    match m w with
    | (Some a, w') => Q a (db w')
    | (None, w') => E (db w')
    end.

(** [m] never leaves [I]. *)
Definition keeps {A} (I : Db -> Prop) (m : M A) : Prop :=
  triple I m (fun _ => I) I.

(** A handler with its [catch] takes [P] to [Q]. *)
Definition leads {A} (P Q : Db -> Prop) (h : T A) : Prop :=
  forall w, P (db w) -> Q (db (snd (h w))).

(** A handler with its [catch] never leaves [I]. *)
Definition preserves {A} (I : Db -> Prop) (h : T A) : Prop := leads I I h.

(* ------------------------------------------------------------------ *)
(** ** Kinds of routes *)

(** The routes registered with [app.get]. *)
Definition is_get (r : Route) : bool :=
  match r with
  | GET_root | GET_dashboard | GET_search | GET_add | GET_edit _
  | GET_log_words _ | GET_stats | GET_manage_users | GET_edit_user _
  | GET_logout => true
  | _ => false
  end.

(** The routes registered with [requireManager] in front. *)
Definition manager_route (r : Route) : bool :=
  match r with
  | GET_manage_users | GET_edit_user _ | POST_edit_user _
  | POST_delete_user _ => true
  | _ => false
  end.


(** The project [p] belongs to the user of the session. *)
Definition owns (sess : Session) (p : Project) : Prop :=
  userId sess = Some (proj_user_id p).

(** The row of a listing belongs to a project of the session's user and
    shows that project's current word count. *)
Definition own_row (sess : Session) (d : Db) (r : Summary) : Prop :=
  exists p, In p (projects d) /\ owns sess p
            /\ sm_id r = project_id p
            /\ current_words r = currentTotal (project_id p) d.

(* ------------------------------------------------------------------ *)
(** ** The daily goal in the older server *)

(** [index.js] stores no daily target: it derives one from the target of
    the active goal, once in the SQL of the dashboard and search listings
    and once in the handler of the edit form.  [target_value] is the
    column of the joined Goal row, [None] when the project has no active
    goal. *)
Module IndexJs.

(** [COALESCE(g.target_value / 50, 1000) AS daily_goal].  Modelled from
    the spec: [target_value] is a word count, an integer column, and the
    division of two integers in SQL truncates. *)
Definition daily_goal_listed (target_value : option Z) : Z :=
  match target_value with
  | Some t => Z.quot t 50
  | None => 1000
  end.

(** [COALESCE(g.target_value, 50000) AS target_words] *)
Definition target_words (target_value : option Z) : Z :=
  match target_value with
  | Some t => t
  | None => 50000
  end.

(** [Math.round(n / 50)]: the nearest integer, a half going up. *)
Definition round_fiftieth (n : Z) : Z := (2 * n + 50) / 100.

(** [project.daily_goal = Math.round(project.target_words / 50)] *)
Definition daily_goal_on_form (target_value : option Z) : Z :=
  round_fiftieth (target_words target_value).

End IndexJs.

(* ================================================================== *)
(** * A deployment used in the examples *)
(* ================================================================== *)

Module Demo.

Definition alice : User :=
  mkUser 1 (js "alice") None (Some (js "Alice")) None (js "U") 0.
Definition bob : User :=
  mkUser 2 (js "bob") None (Some (js "Bob")) None (js "U") 0.
Definition carol : User :=
  mkUser 3 (js "carol") None (Some (js "Carol")) None (js "M") 0.

(** Three accounts, carol a manager; nothing written yet. *)
Definition db0 : Db :=
  mkDb [alice; bob; carol]
       [mkSecurity 1 (js "pw-a") None; mkSecurity 2 (js "pw-b") None;
        mkSecurity 3 (js "pw-c") None]
       [] [] [] 1 1.

Definition w0 : World := mkWorld db0 [].

Definition form (fs : list (string * string)) (sd : option Z) : Body :=
  mkBody (map (fun kv => (fst kv, js (snd kv))) fs) sd.

Definition get (p : string) : Request :=
  mkRequest GET (js p) (mkBody [] None) None.

Definition post (p : string) (fs : list (string * string)) (sd : option Z)
  : Request :=
  mkRequest POST (js p) (form fs sd) None.

Definition login_as (name pw : string) : Request :=
  post "/login" [("username", name); ("password", pw)]%string None.

Definition alice_session : Session :=
  mkSession true (Some (js "alice")) (Some 1) (Some (js "Alice")) (Some (js "U")).
Definition bob_session : Session :=
  mkSession true (Some (js "bob")) (Some 2) (Some (js "Bob")) (Some (js "U")).
Definition carol_session : Session :=
  mkSession true (Some (js "carol")) (Some 3) (Some (js "Carol")) (Some (js "M")).

(** The scenario of the specification: a project with target 10000 and
    daily goal 500, started at instant 10. *)
Definition new_project : Request :=
  post "/add" [("title", "Novel"); ("genre", "Fiction");
               ("targetWords", "10000"); ("dailyGoal", "500");
               ("currentWords", "0")]%string (Some 10).

Definition scenario : list (Z * Request) :=
  [(100, login_as "alice" "pw-a");
   (110, new_project);
   (120, post "/log-words/1" [("text", "one two three")]%string None);
   (130, post "/log-words/1" [("manual_count", "47")]%string None);
   (140, post "/edit/1" [("title", "Novel"); ("genre", "Fiction");
                         ("targetWords", "10000"); ("dailyGoal", "500");
                         ("currentWords", "40")]%string (Some 10))].

(** A project whose start date (instant 5000) lies after the instants at
    which words are logged to it, created with an initial count of 100. *)
Definition future_dated : list (Z * Request) :=
  [(100, login_as "alice" "pw-a");
   (110, post "/add" [("title", "Novel"); ("genre", "Fiction");
                      ("targetWords", "10000"); ("dailyGoal", "500");
                      ("currentWords", "100")]%string (Some 5000));
   (120, post "/log-words/1" [("manual_count", "5")]%string None);
   (130, post "/log-words/1" [("manual_count", "7")]%string None)].

(** Alice's project with three logged words, then bob, logged in to his
    own account, posting to alice's project id. *)
Definition alices_project : list (Z * Request) :=
  [(100, login_as "alice" "pw-a");
   (110, new_project);
   (120, post "/log-words/1" [("text", "one two three")]%string None);
   (130, get "/logout")].

Definition bob_deletes : list (Z * Request) :=
  [(200, login_as "bob" "pw-b");
   (210, post "/delete/1" [] None)].

Definition bob_logs : list (Z * Request) :=
  [(200, login_as "bob" "pw-b");
   (210, post "/log-words/1" [("manual_count", "1000")]%string None)].

Definition bob_edits : list (Z * Request) :=
  [(200, login_as "bob" "pw-b");
   (210, post "/edit/1" [("targetWords", "1"); ("currentWords", "0")]%string
              (Some 0))].



(** The world after the scenario's first four requests: 3 and then 47
    words logged. *)
Definition after_logging : World :=
  snd (serve (firstn 4 scenario) anonymous w0).

End Demo.

(* ================================================================== *)
(** * Properties *)
(* ================================================================== *)

Import Query.

(** ** Strings *)

Lemma str_eqb_eq (a b : jsstring) : str_eqb a b = true <-> a = b.
Proof.
  revert b; induction a as [|x a IH]; intros [|y b]; simpl;
    try (split; congruence).
  rewrite andb_true_iff, N.eqb_eq, IH. split.
  - intros [-> ->]; reflexivity.
  - intros H; injection H; auto.
Qed.

Lemma str_eqb_refl (a : jsstring) : str_eqb a a = true.
Proof. apply str_eqb_eq; reflexivity. Qed.

Lemma str_eqb_neq (a b : jsstring) : a <> b -> str_eqb a b = false.
Proof.
  intros H. destruct (str_eqb a b) eqn:E; [|reflexivity].
  apply str_eqb_eq in E. contradiction.
Qed.

(** ** Rules for triples *)

Lemma triple_ret {A} (P : Db -> Prop) (a : A) (Q : A -> Db -> Prop) E :
  (forall d, P d -> Q a d) -> triple P (ret a) Q E.
Proof. intros H w Hw. simpl. auto. Qed.

Lemma triple_bind {A B} (P : Db -> Prop) (m : M A) (k : A -> M B)
    (Q : A -> Db -> Prop) (R : B -> Db -> Prop) E :
  triple P m Q E -> (forall a, triple (Q a) (k a) R E) ->
  triple P (bind m k) R E.
Proof.
  intros Hm Hk w Hw. unfold bind. specialize (Hm w Hw).
  destruct (m w) as [[a|] w']; [|exact Hm]. apply Hk. exact Hm.
Qed.

Lemma triple_query {A} (P : Db -> Prop) (q : Sql)
    (run : Db -> option (A * Db)) (Q : A -> Db -> Prop) (E : Db -> Prop) :
  (forall d a d', P d -> run d = Some (a, d') -> Q a d') ->
  (forall d, P d -> E d) ->
  triple P (query q run) Q E.
Proof.
  intros Hq He w Hw. unfold query.
  destruct (run (db w)) as [[a d']|] eqn:Er; simpl; eauto.
Qed.

Lemma triple_reading {A} (I : Db -> Prop) (q : Sql) (rows : Db -> option A) :
  keeps I (query q (reading rows)).
Proof.
  apply triple_query; [|auto]. unfold reading. intros d a d' Hd H.
  destruct (rows d); simpl in H; [|discriminate]. now injection H as _ <-.
Qed.

Lemma keeps_bind {A B} (I : Db -> Prop) (m : M A) (k : A -> M B) :
  keeps I m -> (forall a, keeps I (k a)) -> keeps I (bind m k).
Proof. intros Hm Hk. eapply triple_bind; eauto. Qed.

Lemma keeps_ret {A} (I : Db -> Prop) (a : A) : keeps I (ret a).
Proof. apply triple_ret. auto. Qed.

Lemma triple_weaken {A} (P P' : Db -> Prop) (m : M A)
    (Q Q' : A -> Db -> Prop) (E E' : Db -> Prop) :
  (forall d, P' d -> P d) -> (forall a d, Q a d -> Q' a d) ->
  (forall d, E d -> E' d) ->
  triple P m Q E -> triple P' m Q' E'.
Proof.
  intros HP HQ HE H w Hw. specialize (H w (HP _ Hw)).
  destruct (m w) as [[a|] w']; auto.
Qed.

Lemma leads_try_catch {A} (P Q : Db -> Prop) (m : M A) (h : A) :
  triple P m (fun _ => Q) Q -> leads P Q (try_catch m h).
Proof.
  intros Hm w Hw. unfold try_catch. specialize (Hm w Hw).
  destruct (m w) as [[a|] w']; exact Hm.
Qed.

Lemma preserves_try_catch {A} (I : Db -> Prop) (m : M A) (h : A) :
  keeps I m -> preserves I (try_catch m h).
Proof. apply leads_try_catch. Qed.

Lemma leads_keep (P Q : Db -> Prop) sess (h : T Response) :
  leads P Q h -> leads P Q (keep sess h).
Proof.
  intros H w Hw. unfold keep. specialize (H w Hw).
  destruct (h w) as [r w']. exact H.
Qed.

Lemma leads_weaken {A} (P P' Q Q' : Db -> Prop) (h : T A) :
  (forall d, P' d -> P d) -> (forall d, Q d -> Q' d) ->
  leads P Q h -> leads P' Q' h.
Proof. intros HP HQ H w Hw. apply HQ, H, HP, Hw. Qed.

Lemma preserves_pure {A} (I : Db -> Prop) (a : A) : preserves I (pure a).
Proof. intros w Hw. exact Hw. Qed.

Lemma preserves_keep (I : Db -> Prop) sess (h : T Response) :
  preserves I h -> preserves I (keep sess h).
Proof. apply leads_keep. Qed.

Lemma preserves_requireManager (I : Db -> Prop) sess (h : T Response) :
  preserves I h -> preserves I (requireManager sess h).
Proof.
  intros H. unfold requireManager.
  destruct (isManager sess); [exact H | apply preserves_pure].
Qed.

(** A write that the invariant survives. *)
Lemma keeps_writing (I : Db -> Prop) (q : Sql) (f : Db -> option Db) :
  (forall d d', I d -> f d = Some d' -> I d') ->
  keeps I (query q (writing f)).
Proof.
  intros H. apply triple_query; [|auto]. unfold writing.
  intros d a d' Hd E. destruct (f d) as [x|] eqn:Ef; simpl in E; [|discriminate].
  injection E as _ <-. eauto.
Qed.

(** The rules that hold for every invariant, and, added below, what each
    statement of the source keeps. *)
Create HintDb handlers.

#[export] Hint Resolve keeps_ret triple_reading : handlers.

(** One step through a handler body that never leaves the invariant. *)
Ltac keeps_step :=
  first
    [ solve [auto 2 with handlers]
    | apply keeps_bind; [|intros ?]
    | match goal with
      | |- keeps _ (match ?x with _ => _ end) => destruct x
      end ].

Ltac preserves_handler :=
  cbv zeta;
  repeat first
    [ apply preserves_pure
    | apply preserves_keep
    | apply preserves_requireManager
    | apply preserves_try_catch
    | match goal with
      | |- preserves _ (if ?c then _ else _) => destruct c
      end
    | keeps_step ].

(** The bodies of the handlers and of the reads, opened up. *)
Ltac open_handlers :=
  unfold get_root, post_login, get_dashboard, get_search, get_add,
    get_edit, post_edit, post_delete, get_log_words, post_log_words,
    get_stats, get_manage_users, get_edit_user, post_edit_user,
    post_delete_user, select_login, select_summaries, search_summaries,
    select_summary, select_last_log, select_users, select_user.

(** ** The middleware *)

Lemma app_logged_in now req sess :
  isLoggedIn sess = true -> app now req sess = router now req sess.
Proof.
  intros H. unfold app. rewrite H.
  destruct (includes openPaths (path req)); reflexivity.
Qed.

Lemma protected_path (p : jsstring) :
  p <> js "/" -> p <> js "/login" -> p <> js "/logout" ->
  includes openPaths p = false.
Proof.
  intros H1 H2 H3. unfold includes, openPaths. simpl.
  rewrite (str_eqb_neq _ _ H1), (str_eqb_neq _ _ H2), (str_eqb_neq _ _ H3).
  reflexivity.
Qed.

(** C7.  A request to any path other than [/], [/login] and [/logout] by a
    session that is not logged in is answered by rendering the login view
    with the message "Please log in to access this page"; the session and
    the database are left as they were and no SQL statement is issued. *)
Theorem unauthenticated_renders_login now req sess w :
  path req <> js "/" -> path req <> js "/login" -> path req <> js "/logout" ->
  isLoggedIn sess = false ->
  let '((response, sess'), w') := app now req sess w in
  response = Render (login_view (Some "Please log in to access this page"%string))
  /\ sess' = sess
  /\ db w' = db w
  /\ issued w' = issued w.
Proof.
  intros H1 H2 H3 Hl. unfold app.
  rewrite (protected_path _ H1 H2 H3), Hl. simpl. auto.
Qed.

Lemma unauthenticated_renders_login_witness :
  let '((response, sess'), w') :=
    app 100 (Demo.get "/dashboard") anonymous Demo.w0 in
  response = Render (login_view (Some "Please log in to access this page"%string))
  /\ sess' = anonymous
  /\ db w' = db Demo.w0
  /\ issued w' = issued Demo.w0.
Proof.
  apply (unauthenticated_renders_login 100 (Demo.get "/dashboard")
           anonymous Demo.w0); vm_compute; congruence.
Defined.

(** ** Login *)

Lemma login_rows_none (name : option jsstring) (d : Db) :
  (forall u, In u (users d) -> Some (username u) <> name) ->
  login_rows name d = [].
Proof.
  intros H. unfold login_rows. destruct name as [n|]; [|reflexivity].
  induction (users d) as [|u us IH]; simpl; [reflexivity|].
  rewrite str_eqb_neq.
  - apply IH. intros v Hv. apply H. right; exact Hv.
  - intros E. apply (H u); [left; reflexivity | congruence].
Qed.

Lemma login_rows_in (name : option jsstring) (d : Db) (r : LoginRow) :
  In r (login_rows name d) ->
  exists u s, In u (users d) /\ In s (securities d)
              /\ Some (username u) = name
              /\ sec_user_id s = user_id u
              /\ lr_password_text r = password_text s.
Proof.
  unfold login_rows. destruct name as [n|]; [|intros []].
  rewrite in_flat_map. intros (u & Hu & Hr).
  destruct (str_eqb (username u) n) eqn:E; [|destruct Hr].
  apply str_eqb_eq in E. apply in_map_iff in Hr. destruct Hr as (s & <- & Hs).
  apply filter_In in Hs. destruct Hs as [Hs Hid].
  exists u, s. repeat split; auto; [congruence | lia].
Qed.

(** [POST /login] when the lookup finds no row, or a first row whose
    stored password differs from the submitted one. *)
Lemma post_login_refused now req sess w :
  match login_rows (field "username" req) (db w) with
  | [] => True
  | user :: _ =>
      validPassword (field "password" req) (lr_password_text user) = false
  end ->
  post_login now req sess w
  = ((refused, sess),
     mkWorld (db w) (issued w ++ [SelectLogin (field "username" req)])).
Proof.
  unfold post_login, try_catch, bind, select_login, query, reading; simpl.
  destruct (login_rows (field "username" req) (db w)) as [|user rows];
    [reflexivity|].
  intros ->. reflexivity.
Qed.

(** C10.  Two failed logins on one database, the first with a user name
    that no account has, the second with the name of an existing account
    and a password that differs from the stored one, get the same response:
    the login view with the message "Invalid username or password".
    Neither changes the session or the database. *)
Theorem failed_logins_look_alike now req1 req2 sess w :
  method req1 = POST -> path req1 = js "/login" ->
  method req2 = POST -> path req2 = js "/login" ->
  (forall u, In u (users (db w)) -> Some (username u) <> field "username" req1) ->
  (exists u, In u (users (db w)) /\ Some (username u) = field "username" req2) ->
  (forall u s, In u (users (db w)) -> In s (securities (db w)) ->
     Some (username u) = field "username" req2 ->
     sec_user_id s = user_id u ->
     Some (password_text s) <> field "password" req2) ->
  fst (app now req1 sess w) = fst (app now req2 sess w)
  /\ fst (app now req2 sess w) = (refused, sess)
  /\ db (snd (app now req1 sess w)) = db w
  /\ db (snd (app now req2 sess w)) = db w.
Proof.
  intros M1 P1 M2 P2 Hnone _ Hpw.
  assert (R1 : app now req1 sess w = post_login now req1 sess w).
  { unfold app, router. rewrite P1, M1. reflexivity. }
  assert (R2 : app now req2 sess w = post_login now req2 sess w).
  { unfold app, router. rewrite P2, M2. reflexivity. }
  rewrite R1, R2.
  rewrite (post_login_refused now req1), (post_login_refused now req2).
  - simpl. auto.
  - destruct (login_rows (field "username" req2) (db w)) as [|user rows] eqn:E;
      [exact I|].
    destruct (login_rows_in (field "username" req2) (db w) user)
      as (u & s & Hu & Hs & Hn & Hid & Hp); [rewrite E; left; reflexivity|].
    specialize (Hpw u s Hu Hs Hn Hid). unfold validPassword.
    destruct (field "password" req2) as [p|]; [|reflexivity].
    apply str_eqb_neq. congruence.
  - rewrite (login_rows_none _ _ Hnone). exact I.
Qed.

Lemma failed_logins_look_alike_witness :
  fst (app 100 (Demo.login_as "mallory" "x") anonymous Demo.w0)
  = fst (app 100 (Demo.login_as "alice" "x") anonymous Demo.w0)
  /\ fst (app 100 (Demo.login_as "alice" "x") anonymous Demo.w0)
     = (refused, anonymous)
  /\ db (snd (app 100 (Demo.login_as "mallory" "x") anonymous Demo.w0))
     = db Demo.w0
  /\ db (snd (app 100 (Demo.login_as "alice" "x") anonymous Demo.w0))
     = db Demo.w0.
Proof.
  apply (failed_logins_look_alike 100 (Demo.login_as "mallory" "x")
           (Demo.login_as "alice" "x") anonymous Demo.w0);
    try reflexivity.
  - intros u [<-|[<-|[<-|[]]]]; vm_compute; congruence.
  - exists Demo.alice. split; [left; reflexivity | reflexivity].
  - intros u s [<-|[<-|[<-|[]]]] [<-|[<-|[<-|[]]]]; vm_compute; congruence.
Defined.

(** ** User administration *)




(** ** Word logging *)




(** ** The ledger *)

Lemma logs_of_app (p : Z) (l : list ProgressLog) (e : ProgressLog) :
  logs_of p (l ++ [e])
  = logs_of p l ++ (if log_project_id e =? p then [e] else []).
Proof. unfold logs_of. rewrite filter_app. reflexivity. Qed.






Lemma serve_cons now req rest sess w :
  serve ((now, req) :: rest) sess w
  = let '(rs, sess'', w'') :=
      serve rest (snd (fst (app now req sess w))) (snd (app now req sess w)) in
    (fst (fst (app now req sess w)) :: rs, sess'', w'').
Proof.
  simpl. destruct (app now req sess w) as [[r s'] w']. reflexivity.
Qed.




(** ** Counting words *)











(** ** Restating the total on the edit form *)

Lemma latest_none (l : list ProgressLog) : latest l = None -> l = [].
Proof.
  destruct l as [|x l]; [reflexivity|]. simpl.
  destruct (latest l) as [m|]; [|discriminate].
  destruct (log_date m <=? log_date x); discriminate.
Qed.


Lemma num_or_num (n : num) (d : Z) : exists z, num_or n d = Num z.
Proof.
  destruct n as [|z]; simpl; [eauto|]. destruct (z =? 0); eauto.
Qed.






(** ** Goals: one active goal per project *)

Lemma goal_invariant_ext (d d' : Db) :
  goals d' = goals d -> project_seq d' = project_seq d ->
  goal_invariant d -> goal_invariant d'.
Proof.
  unfold goal_invariant, goals_issued, one_active_goal, active_goals.
  intros -> ->. auto.
Qed.

Lemma filter_filter_length {A} (f g : A -> bool) (l : list A) :
  (List.length (filter f (filter g l)) <= List.length (filter f l))%nat.
Proof.
  induction l as [|x l IH]; simpl; [lia|].
  destruct (g x); simpl; destruct (f x); simpl; lia.
Qed.

Lemma filter_map_length {A} (f : A -> bool) (g : A -> A) (l : list A) :
  (forall x, f (g x) = f x) ->
  List.length (filter f (map g l)) = List.length (filter f l).
Proof.
  intros H. induction l as [|x l IH]; simpl; [reflexivity|].
  rewrite H. destruct (f x); simpl; lia.
Qed.

Lemma goal_invariant_filter (d d' : Db) (keep_it : Goal -> bool) :
  goals d' = filter keep_it (goals d) -> project_seq d' = project_seq d ->
  goal_invariant d -> goal_invariant d'.
Proof.
  unfold goal_invariant, goals_issued, one_active_goal, active_goals.
  intros -> -> [H1 H2]. split.
  - intros g Hg. apply filter_In in Hg. apply H1. tauto.
  - intros p. specialize (H2 p).
    pose proof (filter_filter_length (total_words_goal p) keep_it (goals d)).
    lia.
Qed.

Lemma goal_invariant_update (d d' : Db) (upd : Goal -> Goal) :
  (forall g, goal_project_id (upd g) = goal_project_id g
             /\ goal_type (upd g) = goal_type g
             /\ is_active (upd g) = is_active g) ->
  goals d' = map upd (goals d) -> project_seq d' = project_seq d ->
  goal_invariant d -> goal_invariant d'.
Proof.
  unfold goal_invariant, goals_issued, one_active_goal, active_goals.
  intros Hu -> -> [H1 H2]. split.
  - intros g Hg. apply in_map_iff in Hg. destruct Hg as (g0 & <- & Hg0).
    destruct (Hu g0) as (-> & _). auto.
  - intros p. rewrite filter_map_length; [apply H2|].
    intros g. unfold total_words_goal. destruct (Hu g) as (-> & -> & ->).
    reflexivity.
Qed.

Lemma filter_none {A} (f : A -> bool) (l : list A) :
  (forall x, In x l -> f x = false) -> filter f l = [].
Proof.
  induction l as [|x l IH]; intros H; simpl; [reflexivity|].
  rewrite (H x) by (left; reflexivity).
  apply IH. intros y Hy. apply H. right; exact Hy.
Qed.

(** The goal of a new project is the only goal of that project. *)
Lemma awaiting_goal_insert (id : Z) (d d' : Db) (g : Goal) :
  goal_project_id g = id ->
  goals d' = goals d ++ [g] -> project_seq d' = project_seq d ->
  awaiting_goal id d -> goal_invariant d'.
Proof.
  unfold awaiting_goal, goal_invariant, goals_issued, one_active_goal,
    active_goals.
  intros Hid -> -> (Hlt & Hseq & Hone). split.
  - intros x Hx. apply in_app_or in Hx. destruct Hx as [Hx|[<-|[]]].
    + specialize (Hlt x Hx). lia.
    + lia.
  - intros p. rewrite filter_app, length_app. simpl.
    destruct (total_words_goal p g) eqn:Eg; simpl; [|specialize (Hone p); lia].
    assert (p = id).
    { unfold total_words_goal in Eg.
      destruct (goal_project_id g =? p) eqn:Ep; [|discriminate].
      apply Z.eqb_eq in Ep. lia. }
    subst p. rewrite filter_none; [simpl; lia|].
    intros x Hx. unfold total_words_goal.
    replace (goal_project_id x =? id) with false; [reflexivity|].
    symmetry. apply Z.eqb_neq. specialize (Hlt x Hx). lia.
Qed.

Lemma awaiting_goal_invariant (id : Z) (d : Db) :
  awaiting_goal id d -> goal_invariant d.
Proof.
  intros (Hlt & Hseq & Hone). split; [|exact Hone].
  intros g Hg. specialize (Hlt g Hg). lia.
Qed.

Lemma awaiting_goal_ext (id : Z) (d d' : Db) :
  goals d' = goals d -> project_seq d' = project_seq d ->
  awaiting_goal id d -> awaiting_goal id d'.
Proof.
  unfold awaiting_goal, one_active_goal, active_goals. intros -> ->. auto.
Qed.

(** Taking apart the equation of an accepted statement. *)
Ltac accepted H :=
  repeat match type of H with
    | int_param ?n _ = Some _ =>
        destruct n; cbn [int_param] in H; [discriminate|]
    | date_param ?t _ = Some _ =>
        destruct t; cbn [date_param] in H; [|discriminate]
    | (if ?c then _ else _) = Some _ => destruct c eqn:?; [|try discriminate]
    | match ?x with Some _ => _ | None => _ end = Some _ =>
        destruct x; [|try discriminate]
    | None = Some _ => discriminate
    | Some _ = Some _ => injection H; clear H; intros; subst
    end.

Lemma keeps_update_last_login now uid :
  keeps goal_invariant (update_last_login now uid).
Proof.
  apply keeps_writing. intros d d' Hd H. injection H as <-.
  eapply goal_invariant_ext; [| |exact Hd]; reflexivity.
Qed.

Lemma append_log_goals p wc tw t d d' :
  append_log p wc tw t d = Some d' ->
  goals d' = goals d /\ project_seq d' = project_seq d.
Proof.
  unfold append_log. intros H. accepted H. split; reflexivity.
Qed.

Lemma keeps_insert_log now pid count total :
  keeps goal_invariant (insert_log now pid count total).
Proof.
  apply keeps_writing. intros d d' Hd H. accepted H.
  apply append_log_goals in H. destruct H.
  eapply goal_invariant_ext; eauto.
Qed.

Lemma keeps_update_project t g ds sd pid uid :
  keeps goal_invariant (update_project t g ds sd pid uid).
Proof.
  apply keeps_writing. intros d d' Hd H. accepted H.
  eapply goal_invariant_ext; [| |exact Hd]; reflexivity.
Qed.

Lemma keeps_update_goal target daily pid :
  keeps goal_invariant (update_goal target daily pid).
Proof.
  apply keeps_writing. intros d d' Hd H. accepted H.
  eapply goal_invariant_update; [| | |exact Hd]; [|reflexivity|reflexivity].
  intros x. cbv beta. destruct (total_words_goal _ x); auto.
Qed.

Lemma keeps_delete_logs pid : keeps goal_invariant (delete_logs pid).
Proof.
  apply keeps_writing. intros d d' Hd H. accepted H.
  eapply goal_invariant_ext; [| |exact Hd]; reflexivity.
Qed.

Lemma keeps_delete_goals pid : keeps goal_invariant (delete_goals pid).
Proof.
  apply keeps_writing. intros d d' Hd H. accepted H.
  eapply goal_invariant_filter; [| |exact Hd]; reflexivity.
Qed.

Lemma keeps_delete_project pid uid :
  keeps goal_invariant (delete_project pid uid).
Proof.
  apply keeps_writing. intros d d' Hd H. accepted H.
  eapply goal_invariant_ext; [| |exact Hd]; reflexivity.
Qed.

Lemma keeps_update_user name em fn ln perm uid :
  keeps goal_invariant (update_user name em fn ln perm uid).
Proof.
  apply keeps_writing. intros d d' Hd H. accepted H.
  eapply goal_invariant_ext; [| |exact Hd]; reflexivity.
Qed.

Lemma keeps_delete_user uid : keeps goal_invariant (delete_user uid).
Proof.
  apply keeps_writing. intros d d' Hd H. accepted H.
  eapply goal_invariant_filter; [| |exact Hd]; reflexivity.
Qed.

#[export] Hint Resolve keeps_update_last_login keeps_insert_log
  keeps_update_project keeps_update_goal keeps_delete_logs keeps_delete_goals
  keeps_delete_project keeps_update_user keeps_delete_user : handlers.

Lemma insert_project_awaits uid t g ds sd :
  triple goal_invariant (insert_project uid t g ds sd)
         (fun id => awaiting_goal id) goal_invariant.
Proof.
  apply triple_query; [|auto]. intros d id d' [Hi Ho] H. accepted H.
  repeat split.
  - exact Hi.
  - simpl. lia.
  - exact Ho.
Qed.

Lemma insert_goal_restores id target daily sd :
  triple (awaiting_goal id) (insert_goal id target daily sd)
         (fun _ => goal_invariant) goal_invariant.
Proof.
  apply triple_query; [|apply awaiting_goal_invariant].
  unfold writing. intros d a d' Hd H.
  destruct (int_param target _) as [x|] eqn:E; simpl in H; [|discriminate].
  injection H as _ <-. accepted E.
  eapply awaiting_goal_insert; [|reflexivity|reflexivity|exact Hd]; reflexivity.
Qed.

Lemma keeps_insert_log_dated pid count date :
  keeps goal_invariant (insert_log_dated pid count date).
Proof.
  apply keeps_writing. intros d d' Hd H. accepted H.
  apply append_log_goals in H. destruct H.
  eapply goal_invariant_ext; eauto.
Qed.

#[export] Hint Resolve keeps_insert_log_dated : handlers.

Lemma preserves_post_add req sess :
  preserves goal_invariant (post_add req sess).
Proof.
  unfold post_add. cbv zeta. apply preserves_try_catch.
  eapply triple_bind; [apply insert_project_awaits|]. intros id.
  eapply triple_bind; [apply insert_goal_restores|]. intros ?.
  repeat keeps_step.
Qed.

Lemma preserves_router now req sess :
  preserves goal_invariant (router now req sess).
Proof.
  unfold router.
  destruct (route_of (method req) (path req)) as [[]|];
    try (apply preserves_keep; apply preserves_post_add);
    open_handlers; preserves_handler.
Qed.

Lemma preserves_app now req sess : preserves goal_invariant (app now req sess).
Proof.
  unfold app.
  destruct (includes openPaths (path req));
    [apply preserves_router|].
  destruct (isLoggedIn sess); [apply preserves_router | apply preserves_pure].
Qed.



(** ** Project creation *)

Lemma existsb_snoc {A} (f : A -> bool) (l : list A) (x : A) :
  f x = true -> existsb f (l ++ [x]) = true.
Proof.
  intros H. rewrite existsb_app. simpl. rewrite H.
  rewrite orb_true_r. reflexivity.
Qed.

Lemma bind_runs {A B} (m : M A) (k : A -> M B) w a w' :
  m w = (Some a, w') -> bind m k w = k a w'.
Proof. intros H. unfold bind. rewrite H. reflexivity. Qed.

(** A handler that answers the same on both paths leaves the database its
    last statement leaves. *)
Lemma try_catch_respond {A B C} (m1 : M A) (m2 : A -> M B)
    (m3 : A -> B -> M C) (r : Response) w :
  db (snd (try_catch
             (bind m1 (fun a => bind (m2 a) (fun b =>
                bind (m3 a b) (fun _ => ret r)))) r w))
  = db (snd (bind m1 (fun a => bind (m2 a) (fun b => m3 a b)) w)).
Proof.
  unfold try_catch, bind. destruct (m1 w) as [[a|] w1]; [|reflexivity].
  destruct (m2 a w1) as [[b|] w2]; [|reflexivity].
  destruct (m3 a b w2) as [[c|] w3]; reflexivity.
Qed.

Lemma keep_db sess (h : T Response) w :
  db (snd (keep sess h w)) = db (snd (h w)).
Proof. unfold keep. destruct (h w). reflexivity. Qed.

Lemma insert_project_runs d tr u t g ds sd :
  user_exists d u = true ->
  insert_project (Some u) t g ds (Some sd) (mkWorld d tr)
  = (Some (project_seq d),
     mkWorld (mkDb (users d) (securities d)
                   (projects d ++ [mkProject (project_seq d) u t g ds sd])
                   (goals d) (progress_logs d) (project_seq d + 1) (goal_seq d))
             (tr ++ [InsertProject (Some u) (Some sd)])).
Proof.
  intros He. unfold insert_project, query. simpl. rewrite He. reflexivity.
Qed.

Lemma insert_goal_runs d tr id tv dg sd :
  project_exists d id = true ->
  insert_goal id (Num tv) (Num dg) (Some sd) (mkWorld d tr)
  = (Some tt,
     mkWorld (mkDb (users d) (securities d) (projects d)
                   (goals d ++ [mkGoal (goal_seq d) id (js "total_words")
                                       tv dg sd true])
                   (progress_logs d) (project_seq d) (goal_seq d + 1))
             (tr ++ [InsertGoal id (Num tv) (Num dg) (Some sd)])).
Proof.
  intros He. unfold insert_goal, query, writing. simpl. rewrite He. reflexivity.
Qed.




(** ** The ledger invariant along a run in time *)

Lemma dated_head_lt (x : ProgressLog) (r : list ProgressLog) :
  dated (x :: r) = true -> forall y, In y r -> log_date x < log_date y.
Proof.
  revert x. induction r as [|z r IH]; intros x H y Hy; [destruct Hy|].
  simpl in H. apply andb_true_iff in H. destruct H as [Hxz Hr].
  apply Z.ltb_lt in Hxz. destruct Hy as [<-|Hy]; [exact Hxz|].
  specialize (IH z Hr y Hy). lia.
Qed.

Lemma dated_tail (x : ProgressLog) (r : list ProgressLog) :
  dated (x :: r) = true -> dated r = true.
Proof.
  destruct r as [|z r]; [reflexivity|]. simpl.
  intros H. apply andb_true_iff in H. tauto.
Qed.

Lemma dated_snoc (es : list ProgressLog) (e : ProgressLog) :
  dated es = true -> (forall x, In x es -> log_date x < log_date e) ->
  dated (es ++ [e]) = true.
Proof.
  induction es as [|x r IH]; intros Hd Hlt; [reflexivity|].
  destruct r as [|y r].
  - simpl. rewrite andb_true_r. apply Z.ltb_lt. apply Hlt. left; reflexivity.
  - change (dated ((x :: y :: r) ++ [e]))
      with ((log_date x <? log_date y) && dated ((y :: r) ++ [e])).
    simpl in Hd. apply andb_true_iff in Hd. destruct Hd as [Hxy Hr].
    rewrite Hxy. apply IH.
    + exact Hr.
    + intros z Hz. apply Hlt. right; exact Hz.
Qed.

Lemma chained_snoc (prev : Z) (es : list ProgressLog) (e : ProgressLog) :
  chained prev (es ++ [e])
  = chained prev es && (total_words e =? last_total prev es + word_count e).
Proof.
  revert prev. induction es as [|x r IH]; intros prev; simpl.
  - rewrite andb_true_r. reflexivity.
  - rewrite IH, andb_assoc. reflexivity.
Qed.

Lemma latest_in (l : list ProgressLog) (m : ProgressLog) :
  latest l = Some m -> In m l.
Proof.
  revert m. induction l as [|x l IH]; intros m; simpl; [discriminate|].
  destruct (latest l) as [k|].
  - destruct (log_date k <=? log_date x); intros H; injection H as <-; auto.
  - intros H; injection H as <-. auto.
Qed.

(** In a ledger in timestamp order the latest entry is the last one. *)
Lemma latest_last_total (prev : Z) (es : list ProgressLog) :
  dated es = true ->
  match latest es with Some m => total_words m | None => prev end
  = last_total prev es.
Proof.
  revert prev. induction es as [|x r IH]; intros prev Hd; [reflexivity|].
  specialize (IH (total_words x) (dated_tail _ _ Hd)).
  simpl. destruct (latest r) as [m|] eqn:Em.
  - assert (log_date x < log_date m)
      by (apply (dated_head_lt x r Hd); apply latest_in; exact Em).
    destruct (log_date m <=? log_date x) eqn:E;
      [apply Z.leb_le in E; lia | exact IH].
  - exact IH.
Qed.

Lemma currentTotal_last_total (p : Z) (d : Db) :
  ledger_consistent p d = true ->
  currentTotal p d = last_total 0 (logs_of p (progress_logs d)).
Proof.
  unfold ledger_consistent, currentTotal. intros H.
  apply andb_true_iff in H. apply latest_last_total. tauto.
Qed.

Lemma logs_of_filter (q : Z) (keepp : Z -> bool) (l : list ProgressLog) :
  logs_of q (filter (fun e => keepp (log_project_id e)) l)
  = if keepp q then logs_of q l else [].
Proof.
  unfold logs_of. induction l as [|e l IH]; simpl.
  - destruct (keepp q); reflexivity.
  - destruct (keepp (log_project_id e)) eqn:Ek; simpl;
      destruct (log_project_id e =? q) eqn:Eq;
      try exact IH; apply Z.eqb_eq in Eq; rewrite IH, <- Eq, Ek; reflexivity.
Qed.

Lemma project_exists_issued (d : Db) (p : Z) :
  (forall x, In x (projects d) -> project_id x < project_seq d) ->
  project_exists d p = true -> p < project_seq d.
Proof.
  unfold project_exists. intros H E. apply existsb_exists in E.
  destruct E as (x & Hx & Ex). apply Z.eqb_eq in Ex. specialize (H x Hx). lia.
Qed.

Lemma ledger_invariant_mono (t t' : Z) (d : Db) :
  t <= t' -> ledger_invariant t d -> ledger_invariant t' d.
Proof.
  intros Ht (H1 & H2 & H3). repeat split; auto.
  - apply H2; assumption.
  - specialize (H2 e H). lia.
Qed.

(** Statements that leave ProgressLog as it is, and hand out or keep
    project ids. *)
Lemma ledger_invariant_same_logs (t : Z) (d d' : Db) :
  (forall x, In x (projects d') -> project_id x < project_seq d') ->
  progress_logs d' = progress_logs d ->
  project_seq d <= project_seq d' ->
  ledger_invariant t d -> ledger_invariant t d'.
Proof.
  intros Hp Hl Hs (H1 & H2 & H3). split; [exact Hp|]. split.
  - rewrite Hl. intros e He. specialize (H2 e He). lia.
  - intros p. specialize (H3 p). unfold ledger_consistent in *.
    rewrite Hl. exact H3.
Qed.

(** Statements that delete the entries of some projects. *)
Lemma ledger_invariant_filter_logs (t : Z) (d d' : Db) (keepp : Z -> bool) :
  (forall x, In x (projects d') -> project_id x < project_seq d') ->
  progress_logs d'
  = filter (fun e => keepp (log_project_id e)) (progress_logs d) ->
  project_seq d' = project_seq d ->
  ledger_invariant t d -> ledger_invariant t d'.
Proof.
  intros Hp Hl Hs (H1 & H2 & H3). split; [exact Hp|]. split.
  - rewrite Hl, Hs. intros e He. apply filter_In in He. apply H2. tauto.
  - intros p. specialize (H3 p). unfold ledger_consistent in *.
    rewrite Hl, logs_of_filter. destruct (keepp p); [exact H3 | reflexivity].
Qed.

(** Appending, at instant [now], an entry whose total is the current
    total plus its delta. *)
Lemma ledger_invariant_append (now p c tot : Z) (d d' : Db) :
  ledger_invariant now d ->
  project_exists d p = true ->
  tot = currentTotal p d + c ->
  progress_logs d' = progress_logs d ++ [mkLog p c tot now] ->
  projects d' = projects d -> project_seq d' = project_seq d ->
  ledger_invariant (now + 1) d'.
Proof.
  intros (H1 & H2 & H3) He Ht Hl Hp Hs.
  split; [rewrite Hp, Hs; exact H1|]. split.
  - rewrite Hl, Hs. intros e Hin. apply in_app_or in Hin.
    destruct Hin as [Hin|[<-|[]]].
    + specialize (H2 e Hin). lia.
    + simpl. split; [apply project_exists_issued; assumption | lia].
  - intros q. pose proof (H3 q) as Hq. unfold ledger_consistent in *.
    rewrite Hl, logs_of_app. cbn [log_project_id].
    destruct (p =? q) eqn:Epq; [|rewrite app_nil_r; exact Hq].
    apply Z.eqb_eq in Epq. subst q.
    apply andb_true_iff in Hq. destruct Hq as [Hd Hc].
    apply andb_true_iff. split.
    + apply dated_snoc; [exact Hd|]. intros x Hx. simpl.
      apply filter_In in Hx. apply H2. tauto.
    + rewrite chained_snoc, Hc. simpl.
      rewrite <- (currentTotal_last_total p d (H3 p)).
      apply Z.eqb_eq. exact Ht.
Qed.

(** The first entry of a new project, dated [sd]. *)
Lemma ledger_invariant_first_entry (now id c sd : Z) (d d' : Db) :
  awaiting_entry id now d ->
  project_exists d id = true ->
  sd < now ->
  progress_logs d' = progress_logs d ++ [mkLog id c c sd] ->
  projects d' = projects d -> project_seq d' = project_seq d ->
  ledger_invariant (now + 1) d'.
Proof.
  intros [(H1 & H2 & H3) Hnone] He Hsd Hl Hp Hs.
  split; [rewrite Hp, Hs; exact H1|]. split.
  - rewrite Hl, Hs. intros e Hin. apply in_app_or in Hin.
    destruct Hin as [Hin|[<-|[]]].
    + specialize (H2 e Hin). lia.
    + simpl. split; [apply project_exists_issued; assumption | lia].
  - intros q. pose proof (H3 q) as Hq. unfold ledger_consistent in *.
    rewrite Hl, logs_of_app. cbn [log_project_id].
    destruct (id =? q) eqn:Eq; [|rewrite app_nil_r; exact Hq].
    apply Z.eqb_eq in Eq. subst q. rewrite Hnone. simpl.
    rewrite Z.eqb_refl. reflexivity.
Qed.

Lemma ledger_invariant_ext (t : Z) (d d' : Db) :
  projects d' = projects d -> progress_logs d' = progress_logs d ->
  project_seq d' = project_seq d ->
  ledger_invariant t d -> ledger_invariant t d'.
Proof.
  intros Hp Hl Hs H. apply (ledger_invariant_same_logs t d d'); auto; [|lia].
  rewrite Hp, Hs. exact (proj1 H).
Qed.

Lemma keeps_ledger_update_last_login t now uid :
  keeps (ledger_invariant t) (update_last_login now uid).
Proof.
  apply keeps_writing. intros d d' Hd H. accepted H.
  eapply ledger_invariant_ext; [| | |exact Hd]; reflexivity.
Qed.

Lemma keeps_ledger_update_project t tt g ds sd pid uid :
  keeps (ledger_invariant t) (update_project tt g ds sd pid uid).
Proof.
  apply keeps_writing. intros d d' Hd H. accepted H.
  eapply ledger_invariant_same_logs; [| | |exact Hd]; [|reflexivity|simpl; lia].
  simpl. intros x Hx. apply in_map_iff in Hx. destruct Hx as (y & <- & Hy).
  pose proof (proj1 Hd y Hy). destruct (_ && _); exact H.
Qed.

Lemma keeps_ledger_update_goal t target daily pid :
  keeps (ledger_invariant t) (update_goal target daily pid).
Proof.
  apply keeps_writing. intros d d' Hd H. accepted H.
  eapply ledger_invariant_ext; [| | |exact Hd]; reflexivity.
Qed.

Lemma keeps_ledger_delete_logs t pid :
  keeps (ledger_invariant t) (delete_logs pid).
Proof.
  apply keeps_writing. intros d d' Hd H. accepted H.
  eapply (ledger_invariant_filter_logs t d _ (fun q => negb (q =? z)));
    [| | |exact Hd]; [exact (proj1 Hd) | reflexivity | reflexivity].
Qed.

Lemma keeps_ledger_delete_goals t pid :
  keeps (ledger_invariant t) (delete_goals pid).
Proof.
  apply keeps_writing. intros d d' Hd H. accepted H.
  eapply ledger_invariant_ext; [| | |exact Hd]; reflexivity.
Qed.

Lemma keeps_ledger_delete_project t pid uid :
  keeps (ledger_invariant t) (delete_project pid uid).
Proof.
  apply keeps_writing. intros d d' Hd H. accepted H.
  eapply ledger_invariant_same_logs; [| | |exact Hd]; [|reflexivity|simpl; lia].
  simpl. intros x Hx. apply filter_In in Hx. apply (proj1 Hd). tauto.
Qed.

Lemma keeps_ledger_update_user t name em fn ln perm uid :
  keeps (ledger_invariant t) (update_user name em fn ln perm uid).
Proof.
  apply keeps_writing. intros d d' Hd H. accepted H.
  eapply ledger_invariant_ext; [| | |exact Hd]; reflexivity.
Qed.

Lemma keeps_ledger_delete_user t uid :
  keeps (ledger_invariant t) (delete_user uid).
Proof.
  apply keeps_writing. intros d d' Hd H. accepted H.
  eapply (ledger_invariant_filter_logs t d _
            (fun q => negb (existsb (fun x => (project_id x =? q)
                                              && (proj_user_id x =? z))
                                    (projects d))));
    [| | |exact Hd]; [|reflexivity|reflexivity].
  simpl. intros x Hx. apply filter_In in Hx. apply (proj1 Hd). tauto.
Qed.

Lemma keeps_ledger_insert_goal t pid target daily sd :
  keeps (ledger_invariant t) (insert_goal pid target daily sd).
Proof.
  apply keeps_writing. intros d d' Hd H. accepted H.
  eapply ledger_invariant_ext; [| | |exact Hd]; reflexivity.
Qed.

#[export] Hint Resolve keeps_ledger_update_last_login
  keeps_ledger_update_project keeps_ledger_update_goal
  keeps_ledger_delete_logs keeps_ledger_delete_goals
  keeps_ledger_delete_project keeps_ledger_update_user
  keeps_ledger_delete_user keeps_ledger_insert_goal : handlers.

(** After the last total has been read, what it is. *)
Lemma select_last_log_reads t p :
  triple (ledger_invariant t) (select_last_log (Num p))
    (fun rows d =>
       ledger_invariant t d
       /\ rows = match latest (logs_of p (progress_logs d)) with
                 | Some e => [total_words e]
                 | None => []
                 end)
    (ledger_invariant t).
Proof.
  apply triple_query; [|auto]. unfold reading. simpl.
  intros d a d' Hd H. injection H as <- <-. auto.
Qed.

(** The insert of the word-logging and edit handlers, with the total the
    handler has computed from the last total read. *)
Lemma insert_log_chains now p c tot :
  triple (fun d => ledger_invariant now d /\ tot = currentTotal p d + c)
    (insert_log now (Num p) (Num c) (Num tot))
    (fun _ => ledger_invariant (now + 1)) (ledger_invariant (now + 1)).
Proof.
  apply triple_query.
  - unfold writing. simpl. unfold append_log.
    intros d a d' [Hd Ht] H.
    destruct (project_exists d p) eqn:He; simpl in H; [|discriminate].
    injection H as H. subst d'.
    eapply (ledger_invariant_append now p c tot d); eauto.
  - intros d [Hd _]. apply (ledger_invariant_mono now); [lia | exact Hd].
Qed.

Lemma ledger_invariant_succ (now : Z) (d : Db) :
  ledger_invariant now d -> ledger_invariant (now + 1) d.
Proof. apply ledger_invariant_mono. lia. Qed.

(** A body that keeps the invariant of instant [now] leads to the one of
    the next instant. *)
Lemma keeps_ledger_leads {A} now (m : M A) :
  keeps (ledger_invariant now) m ->
  triple (ledger_invariant now) m (fun _ => ledger_invariant (now + 1))
         (ledger_invariant (now + 1)).
Proof.
  apply triple_weaken; auto using ledger_invariant_succ.
Qed.

Lemma keeps_ledger_then {A B} now (m : M A) (k : A -> M B) Q :
  keeps (ledger_invariant now) m ->
  (forall a, triple (ledger_invariant now) (k a) Q (ledger_invariant (now + 1))) ->
  triple (ledger_invariant now) (bind m k) Q (ledger_invariant (now + 1)).
Proof.
  intros Hm Hk. eapply triple_bind; [|exact Hk].
  eapply triple_weaken; [| | |exact Hm]; auto using ledger_invariant_succ.
Qed.

(** Reading the last total and appending an entry computed from it, as
    both the word-logging and the edit handler do. *)
Lemma read_then_append {B} now (pid : num) (k : list Z -> M B) :
  (forall p rows, pid = Num p ->
     triple (fun d => ledger_invariant now d
                      /\ rows = match latest (logs_of p (progress_logs d)) with
                                | Some e => [total_words e]
                                | None => []
                                end)
            (k rows) (fun _ => ledger_invariant (now + 1))
            (ledger_invariant (now + 1))) ->
  triple (ledger_invariant now) (bind (select_last_log pid) k)
         (fun _ => ledger_invariant (now + 1)) (ledger_invariant (now + 1)).
Proof.
  intros Hk. destruct pid as [|p].
  - intros w Hw. unfold bind. simpl. apply ledger_invariant_succ. exact Hw.
  - eapply triple_bind; [|intros rows; apply (Hk p rows); reflexivity].
    eapply triple_weaken; [| | |apply (select_last_log_reads now p)];
      auto using ledger_invariant_succ.
Qed.

Lemma insert_log_from (P : Db -> Prop) now p c tot :
  (forall d, P d -> ledger_invariant now d /\ tot = currentTotal p d + c) ->
  triple P (insert_log now (Num p) (Num c) (Num tot))
         (fun _ => ledger_invariant (now + 1)) (ledger_invariant (now + 1)).
Proof.
  intros H.
  apply (triple_weaken _ P _ _ _ _ _ H (fun _ d Hd => Hd) (fun d Hd => Hd)
           (insert_log_chains now p c tot)).
Qed.

(** The response sent after the last statement changes nothing. *)
Lemma then_respond {A B} (P : Db -> Prop) (m : M A) (b : B)
    (Q E : Db -> Prop) :
  triple P m (fun _ => Q) E -> triple P (bind m (fun _ => ret b)) (fun _ => Q) E.
Proof.
  intros H. eapply triple_bind; [exact H|].
  intros a. apply triple_ret. auto.
Qed.

Lemma leads_post_log_words now req sess id :
  leads (ledger_invariant now) (ledger_invariant (now + 1))
        (post_log_words now req sess id).
Proof.
  unfold post_log_words. cbv zeta. apply leads_try_catch.
  destruct (wordCount (field "text" req) (field "manual_count" req) =? 0).
  - apply keeps_ledger_leads. unfold select_summary. repeat keeps_step.
  - apply read_then_append. intros p rows ->.
    apply then_respond. apply insert_log_from.
    intros d [Hd ->]. split; [exact Hd|]. unfold currentTotal.
    destruct (latest (logs_of p (progress_logs d))); reflexivity.
Qed.

Lemma leads_post_edit now req sess id :
  leads (ledger_invariant now) (ledger_invariant (now + 1))
        (post_edit now req sess id).
Proof.
  unfold post_edit. cbv zeta. apply leads_try_catch.
  apply keeps_ledger_then; [auto with handlers|]. intros ?.
  apply keeps_ledger_then; [auto with handlers|]. intros ?.
  apply read_then_append. intros p rows ->.
  apply then_respond.
  destruct (parseInt (field "currentWords" req)) as [|N].
  - (* NaN: nothing is appended to an empty ledger, and the insert binding
       NaN is rejected otherwise *)
    destruct rows as [|total rows]; simpl.
    + apply triple_ret. intros d [Hd _]. apply ledger_invariant_succ, Hd.
    + intros w [Hw _]. simpl. apply ledger_invariant_succ, Hw.
  - destruct rows as [|total rows]; simpl.
    + destruct (0 <? N).
      * apply insert_log_from.
        intros d [Hd Hr]. split; [exact Hd|]. unfold currentTotal.
        destruct (latest (logs_of p (progress_logs d))); [discriminate|lia].
      * apply triple_ret. intros d [Hd _]. apply ledger_invariant_succ, Hd.
    + destruct (total =? N); simpl.
      * apply triple_ret. intros d [Hd _]. apply ledger_invariant_succ, Hd.
      * apply insert_log_from.
        intros d [Hd Hr]. split; [exact Hd|]. unfold currentTotal.
        destruct (latest (logs_of p (progress_logs d))); [|discriminate].
        injection Hr as ->. lia.
Qed.

Lemma insert_project_awaits_entry now uid t g ds sd :
  triple (ledger_invariant now) (insert_project uid t g ds sd)
         (fun id => awaiting_entry id now) (ledger_invariant (now + 1)).
Proof.
  apply triple_query; [|apply ledger_invariant_succ].
  intros d id d' (H1 & H2 & H3) H. accepted H. split.
  - split; [|split].
    + simpl. intros x Hx. apply in_app_or in Hx. destruct Hx as [Hx|[<-|[]]].
      * specialize (H1 x Hx). lia.
      * simpl. lia.
    + simpl. intros e He. specialize (H2 e He). lia.
    + exact H3.
  - simpl. apply filter_none. intros e He. apply Z.eqb_neq.
    specialize (H2 e He). lia.
Qed.

Lemma insert_goal_awaits_entry now id target daily sd :
  triple (awaiting_entry id now) (insert_goal id target daily sd)
         (fun _ => awaiting_entry id now) (ledger_invariant (now + 1)).
Proof.
  apply triple_query.
  - unfold writing. intros d a d' [Hd Hn] H.
    destruct (int_param target _) as [x|] eqn:E; simpl in H; [|discriminate].
    injection H as _ <-. accepted E. split; [|exact Hn].
    eapply ledger_invariant_ext; [| | |exact Hd]; reflexivity.
  - intros d [Hd _]. apply ledger_invariant_succ, Hd.
Qed.

Lemma insert_log_dated_first now id count date :
  (forall sd, date = Some sd -> sd < now) ->
  triple (awaiting_entry id now) (insert_log_dated id count date)
         (fun _ => ledger_invariant (now + 1)) (ledger_invariant (now + 1)).
Proof.
  intros Hsd. apply triple_query.
  - unfold writing. intros d a d' Hd H.
    destruct (int_param count _) as [x|] eqn:E; simpl in H; [|discriminate].
    injection H as _ <-. accepted E. unfold append_log in E.
    destruct (project_exists d id) eqn:He; [|discriminate].
    injection E as E. subst x.
    eapply (ledger_invariant_first_entry now id _ _ d);
      [exact Hd | exact He | apply Hsd; reflexivity | | |]; reflexivity.
  - intros d [Hd _]. apply ledger_invariant_succ, Hd.
Qed.

Lemma leads_post_add now req sess :
  (forall sd, startDate (body req) = Some sd -> sd < now) ->
  leads (ledger_invariant now) (ledger_invariant (now + 1)) (post_add req sess).
Proof.
  intros Hsd. unfold post_add. cbv zeta. apply leads_try_catch.
  eapply triple_bind; [apply insert_project_awaits_entry|]. intros id.
  eapply triple_bind; [apply insert_goal_awaits_entry|]. intros ?.
  apply then_respond.
  destruct (num_gt0 (parseInt (field "currentWords" req))).
  - apply insert_log_dated_first. exact Hsd.
  - apply triple_ret. intros d [Hd _]. apply ledger_invariant_succ, Hd.
Qed.

Lemma leads_router now req sess :
  timely now req ->
  leads (ledger_invariant now) (ledger_invariant (now + 1))
        (router now req sess).
Proof.
  intros Ht. unfold router. unfold timely in Ht.
  destruct (route_of (method req) (path req)) as [[]|];
    try (apply leads_keep;
         first [ apply leads_post_add; intros sd; apply Ht; reflexivity
               | apply leads_post_edit
               | apply leads_post_log_words ]);
    apply (leads_weaken (ledger_invariant now) _ (ledger_invariant now));
    auto using ledger_invariant_succ;
    open_handlers; preserves_handler.
Qed.

Lemma leads_app now req sess :
  timely now req ->
  leads (ledger_invariant now) (ledger_invariant (now + 1)) (app now req sess).
Proof.
  intros Ht. unfold app.
  destruct (includes openPaths (path req)); [apply leads_router, Ht|].
  destruct (isLoggedIn sess); [apply leads_router, Ht|].
  intros w Hw. apply ledger_invariant_succ, Hw.
Qed.

(** Along a run whose instants increase and in which every project is
    created with a start date before the instant of its creation, the
    ledger invariant holds in every state: each project's entries are in
    timestamp order and their running totals chain from zero. *)
Theorem ledgers_consistent_in_time (reqs : list (Z * Request)) :
  forall t sess w,
  ledger_invariant t (db w) ->
  StronglySorted Z.lt (map fst reqs) ->
  Forall (fun c => t <= fst c /\ timely (fst c) (snd c)) reqs ->
  exists t', ledger_invariant t' (db (snd (serve reqs sess w)))
             /\ forall p, ledger_consistent p (db (snd (serve reqs sess w))) = true.
Proof.
  induction reqs as [|[now req] reqs IH]; intros t sess w Hw Hs Hf.
  - exists t. split; [exact Hw | exact (proj2 (proj2 Hw))].
  - inversion Hs as [|? ? Hs' Hlt]; subst.
    inversion Hf as [|? ? [Hle Ht] Hf']; subst. simpl in Hle, Ht.
    rewrite serve_cons.
    pose proof (leads_app now req sess Ht w
                  (ledger_invariant_mono t now _ Hle Hw)) as H1.
    destruct (app now req sess w) as [[r s1] w1]. cbn [fst snd] in *.
    destruct (IH (now + 1) s1 w1 H1 Hs') as (t' & H2 & H3).
    + rewrite Forall_forall in Hlt, Hf' |- *. intros c Hc.
      split; [|apply Hf'; exact Hc].
      assert (now < fst c) by (apply Hlt, in_map, Hc). lia.
    + destruct (serve reqs s1 w1) as [[rs s2] w2]. exists t'. auto.
Qed.

Lemma ledgers_consistent_in_time_witness :
  exists t', ledger_invariant t'
               (db (snd (serve Demo.scenario anonymous Demo.w0)))
             /\ forall p, ledger_consistent p
                            (db (snd (serve Demo.scenario anonymous Demo.w0)))
                          = true.
Proof.
  apply (ledgers_consistent_in_time Demo.scenario 0 anonymous Demo.w0).
  - split; [intros x []|]. split; [intros e [] | intros p; reflexivity].
  - repeat constructor.
  - repeat constructor; simpl; try lia;
      intros sd Hr Hs; vm_compute in Hr, Hs; try discriminate;
      injection Hs as <-; lia.
Defined.

(** C1 on the code.  Alice creates a project with an initial count of 100
    and a start date (instant 5000) later than the instants at which she
    then logs 5 and 7 words.  [POST /add] stamps the initial entry with the
    start date, so it stays the "latest" entry: both submissions add their
    delta to 100.  The stored entries are neither in timestamp order nor
    chained, and read oldest first the first total (105) is not the first
    delta (5). *)
Theorem future_start_date_breaks_ledger :
  let d := db (snd (serve Demo.future_dated anonymous Demo.w0)) in
  progress_logs d
  = [mkLog 1 100 100 5000; mkLog 1 5 105 120; mkLog 1 7 107 130]
  /\ ledger_consistent 1 d = false
  /\ chained 0 (logs_of 1 (progress_logs d)) = false
  /\ history 1 d
     = [mkLog 1 5 105 120; mkLog 1 7 107 130; mkLog 1 100 100 5000]
  /\ chained 0 (history 1 d) = false
  /\ currentTotal 1 d = 100.
Proof. vm_compute. repeat split; reflexivity. Qed.

(** ** Project rows of other users *)

Lemma others_kept_ext (u : Z) (ps : list Project) (d d' : Db) :
  projects d' = projects d -> others_kept u ps d -> others_kept u ps d'.
Proof. unfold others_kept, others_projects. intros ->. auto. Qed.

Lemma filter_map_fixed {A} (f : A -> bool) (g : A -> A) (l : list A) :
  (forall x, f (g x) = f x) -> (forall x, f x = true -> g x = x) ->
  filter f (map g l) = filter f l.
Proof.
  intros H1 H2. induction l as [|x l IH]; simpl; [reflexivity|].
  rewrite H1. destruct (f x) eqn:E; [rewrite (H2 x E), IH|]; auto.
Qed.

Lemma filter_filter_implied {A} (f g : A -> bool) (l : list A) :
  (forall x, f x = true -> g x = true) ->
  filter f (filter g l) = filter f l.
Proof.
  intros H. induction l as [|x l IH]; simpl; [reflexivity|].
  destruct (g x) eqn:Eg; simpl.
  - rewrite IH. reflexivity.
  - destruct (f x) eqn:Ef; [rewrite (H x Ef) in Eg; discriminate | exact IH].
Qed.

Section Ownership.

Variable u : Z.
Variable ps : list Project.

Lemma keeps_others_update_last_login now uid :
  keeps (others_kept u ps) (update_last_login now uid).
Proof.
  apply keeps_writing. intros d d' Hd H. accepted H.
  eapply others_kept_ext; [|exact Hd]; reflexivity.
Qed.

Lemma keeps_others_insert_project uid t g ds sd :
  uid = Some u ->
  keeps (others_kept u ps) (insert_project uid t g ds sd).
Proof.
  intros ->. apply triple_query; [|auto]. intros d id d' Hd H. accepted H.
  unfold others_kept, others_projects in *. simpl.
  rewrite filter_app. simpl. rewrite Z.eqb_refl. simpl.
  rewrite app_nil_r. exact Hd.
Qed.

Lemma keeps_others_insert_goal pid target daily sd :
  keeps (others_kept u ps) (insert_goal pid target daily sd).
Proof.
  apply keeps_writing. intros d d' Hd H. accepted H.
  eapply others_kept_ext; [|exact Hd]; reflexivity.
Qed.

Lemma append_log_projects p wc tw t d d' :
  append_log p wc tw t d = Some d' -> projects d' = projects d.
Proof. unfold append_log. intros H. accepted H. reflexivity. Qed.

Lemma keeps_others_insert_log_dated pid count date :
  keeps (others_kept u ps) (insert_log_dated pid count date).
Proof.
  apply keeps_writing. intros d d' Hd H. accepted H.
  apply append_log_projects in H. eapply others_kept_ext; eauto.
Qed.

Lemma keeps_others_insert_log now pid count total :
  keeps (others_kept u ps) (insert_log now pid count total).
Proof.
  apply keeps_writing. intros d d' Hd H. accepted H.
  apply append_log_projects in H. eapply others_kept_ext; eauto.
Qed.

Lemma keeps_others_update_project t g ds sd pid uid :
  uid = Some u ->
  keeps (others_kept u ps) (update_project t g ds sd pid uid).
Proof.
  intros ->. apply keeps_writing. intros d d' Hd H. accepted H.
  unfold others_kept, others_projects in *. simpl.
  rewrite filter_map_fixed; [exact Hd| |].
  - intros x. destruct (_ && _); reflexivity.
  - intros x Hx. rewrite (Z.eqb_sym u).
    destruct (proj_user_id x =? u); [discriminate|].
    rewrite andb_false_r. reflexivity.
Qed.

Lemma keeps_others_update_goal target daily pid :
  keeps (others_kept u ps) (update_goal target daily pid).
Proof.
  apply keeps_writing. intros d d' Hd H. accepted H.
  eapply others_kept_ext; [|exact Hd]; reflexivity.
Qed.

Lemma keeps_others_delete_logs pid :
  keeps (others_kept u ps) (delete_logs pid).
Proof.
  apply keeps_writing. intros d d' Hd H. accepted H.
  eapply others_kept_ext; [|exact Hd]; reflexivity.
Qed.

Lemma keeps_others_delete_goals pid :
  keeps (others_kept u ps) (delete_goals pid).
Proof.
  apply keeps_writing. intros d d' Hd H. accepted H.
  eapply others_kept_ext; [|exact Hd]; reflexivity.
Qed.

Lemma keeps_others_delete_project pid uid :
  uid = Some u ->
  keeps (others_kept u ps) (delete_project pid uid).
Proof.
  intros ->. apply keeps_writing. intros d d' Hd H. accepted H.
  unfold others_kept, others_projects in *. simpl.
  rewrite filter_filter_implied; [exact Hd|].
  intros x Hx. rewrite (Z.eqb_sym u).
  destruct (proj_user_id x =? u); [discriminate|].
  rewrite andb_false_r. reflexivity.
Qed.

Lemma keeps_others_update_user name em fn ln perm uid :
  keeps (others_kept u ps) (update_user name em fn ln perm uid).
Proof.
  apply keeps_writing. intros d d' Hd H. accepted H.
  eapply others_kept_ext; [|exact Hd]; reflexivity.
Qed.

End Ownership.

#[export] Hint Resolve keeps_others_update_last_login
  keeps_others_insert_project keeps_others_insert_goal
  keeps_others_insert_log_dated keeps_others_insert_log
  keeps_others_update_project keeps_others_update_goal
  keeps_others_delete_logs keeps_others_delete_goals
  keeps_others_delete_project keeps_others_update_user : handlers.

(** Whatever a user who is not a manager requests, the Project rows of
    the other users stay as they are. *)
Theorem other_users_projects_kept now req sess w u :
  userId sess = Some u ->
  isManager sess = false ->
  others_projects u (db (snd (app now req sess w)))
  = others_projects u (db w).
Proof.
  intros Hu Hm.
  assert (H : preserves (others_kept u (others_projects u (db w)))
                        (app now req sess)).
  { unfold app.
    assert (R : preserves (others_kept u (others_projects u (db w)))
                          (router now req sess)).
    { unfold router.
      destruct (route_of (method req) (path req)) as [[]|];
        open_handlers; unfold post_add, requireManager; rewrite ?Hm;
        preserves_handler. }
    destruct (includes openPaths (path req)); [exact R|].
    destruct (isLoggedIn sess); [exact R | apply preserves_pure]. }
  apply (H w). reflexivity.
Qed.

Lemma other_users_projects_kept_witness :
  others_projects 2
    (db (snd (app 210 (Demo.post "/delete/1" [] None) Demo.bob_session
                  (snd (serve Demo.alices_project anonymous Demo.w0)))))
  = others_projects 2 (db (snd (serve Demo.alices_project anonymous Demo.w0))).
Proof.
  apply (other_users_projects_kept 210 (Demo.post "/delete/1" [] None)
           Demo.bob_session
           (snd (serve Demo.alices_project anonymous Demo.w0)) 2);
    reflexivity.
Defined.

(** C2 on the code.  Alice owns project 1, with one goal and one progress
    entry.  Bob, logged in to his own account (user id 2), posts to
    [/delete/1]: the ProgressLog and Goal rows of alice's project are
    deleted, by statements that carry the project id alone; only the
    Project row, whose statement also carries bob's user id, stays. *)
Theorem delete_reaches_other_users_rows :
  let before := snd (serve Demo.alices_project anonymous Demo.w0) in
  let after := snd (serve Demo.bob_deletes anonymous before) in
  map proj_user_id (projects (db before)) = [1]
  /\ userId (snd (fst (serve Demo.bob_deletes anonymous before))) = Some 2
  /\ progress_logs (db before) = [mkLog 1 3 3 120]
  /\ active_goals 1 (db before) = 1%nat
  /\ progress_logs (db after) = []
  /\ goals (db after) = []
  /\ projects (db after) = projects (db before)
  /\ skipn (List.length (issued before)) (issued after)
     = [SelectLogin (Some (js "bob")); UpdateLastLogin 2;
        DeleteLogs (Num 1); DeleteGoals (Num 1); DeleteProject (Num 1) (Some 2)].
Proof. vm_compute. repeat split; reflexivity. Qed.

(** Bob logging words to alice's project: the entry is appended. *)
Lemma log_words_reaches_other_users_project :
  let before := snd (serve Demo.alices_project anonymous Demo.w0) in
  let after := snd (serve Demo.bob_logs anonymous before) in
  progress_logs (db after)
  = progress_logs (db before) ++ [mkLog 1 1000 1003 210].
Proof. vm_compute. reflexivity. Qed.

(** Bob posting the edit form of alice's project: the Project row stays,
    the goal's target is overwritten and a correction entry is appended. *)
Lemma edit_reaches_other_users_rows :
  let before := snd (serve Demo.alices_project anonymous Demo.w0) in
  let after := snd (serve Demo.bob_edits anonymous before) in
  projects (db after) = projects (db before)
  /\ map target_value (goals (db before)) = [10000]
  /\ map target_value (goals (db after)) = [1]
  /\ progress_logs (db after)
     = progress_logs (db before) ++ [mkLog 1 (-3) 0 210].
Proof. vm_compute. repeat split; reflexivity. Qed.

(** ** Requests that only read *)

Lemma route_of_GET (p : jsstring) (r : Route) :
  route_of GET p = Some r -> is_get r = true.
Proof.
  unfold route_of.
  repeat match goal with
         | |- context [match ?x with _ => _ end] => destruct x
         end; intros H; try discriminate; injection H as <-; reflexivity.
Qed.

(** A [GET] request, whatever its path and session, writes nothing: the
    database after it is the database before it. *)
Theorem get_requests_only_read now req sess w :
  method req = GET -> db (snd (app now req sess w)) = db w.
Proof.
  intros Hm.
  assert (R : preserves (fun d => d = db w) (router now req sess)).
  { unfold router. rewrite Hm.
    destruct (route_of GET (path req)) as [r|] eqn:E;
      [|apply preserves_pure].
    apply route_of_GET in E.
    destruct r; try discriminate; open_handlers; preserves_handler. }
  assert (H : preserves (fun d => d = db w) (app now req sess)).
  { unfold app. destruct (includes openPaths (path req)); [exact R|].
    destruct (isLoggedIn sess); [exact R | apply preserves_pure]. }
  apply (H w). reflexivity.
Qed.

Lemma get_requests_only_read_witness :
  db (snd (app 150 (Demo.get "/stats") Demo.alice_session Demo.after_logging))
  = db Demo.after_logging.
Proof.
  apply (get_requests_only_read 150 (Demo.get "/stats") Demo.alice_session
           Demo.after_logging). reflexivity.
Defined.

(** ** The manager gate *)

(** A logged-in user whose session does not carry the permission ['M']
    gets status 403 on each of the four manager routes; no statement is
    issued and nothing changes. *)
Theorem non_manager_forbidden now req sess w r :
  route_of (method req) (path req) = Some r ->
  manager_route r = true ->
  isLoggedIn sess = true ->
  isManager sess = false ->
  app now req sess w
  = ((Send 403 "Access denied. Manager permissions required.", sess), w).
Proof.
  intros Hr Hk Hl Hm. rewrite (app_logged_in _ _ _ Hl). unfold router.
  rewrite Hr. destruct r; try discriminate;
    unfold keep, get_manage_users, get_edit_user, post_edit_user,
      post_delete_user, requireManager; rewrite Hm; reflexivity.
Qed.

Lemma non_manager_forbidden_witness :
  app 150 (Demo.post "/delete-user/1" [] None) Demo.bob_session Demo.w0
  = ((Send 403 "Access denied. Manager permissions required.",
      Demo.bob_session), Demo.w0).
Proof.
  apply (non_manager_forbidden 150 (Demo.post "/delete-user/1" [] None)
           Demo.bob_session Demo.w0 (POST_delete_user (js "1")));
    reflexivity.
Defined.

(** ** Sessions *)

Lemma includes_openPaths (p : jsstring) :
  includes openPaths p = true ->
  p = js "/" \/ p = js "/login" \/ p = js "/logout".
Proof.
  unfold includes, openPaths. simpl. rewrite !orb_true_iff, !str_eqb_eq.
  intros [H|[H|[H|H]]]; auto. discriminate.
Qed.

Lemma post_login_accepted now req sess w user rest :
  login_rows (field "username" req) (db w) = user :: rest ->
  validPassword (field "password" req) (lr_password_text user) = true ->
  post_login now req sess w
  = ((Redirect "/dashboard",
      mkSession true (Some (lr_username user)) (Some (lr_user_id user))
                (lr_first_name user) (Some (lr_permissions user))),
     mkWorld
       (set_securities (db w)
          (map (fun s => if sec_user_id s =? lr_user_id user
                         then mkSecurity (sec_user_id s) (password_text s)
                                         (Some now)
                         else s)
               (securities (db w))))
       ((issued w ++ [SelectLogin (field "username" req)])
        ++ [UpdateLastLogin (lr_user_id user)])).
Proof.
  intros Hrows Hpw.
  unfold post_login, try_catch, bind, select_login, update_last_login, query,
    reading, writing; simpl.
  rewrite Hrows, Hpw. reflexivity.
Qed.

(** A login with the password stored for the first row the lookup finds
    redirects to the dashboard and stamps that user's [last_login]; the
    client's next request to [/dashboard] is then served as that user: the
    listing of that user's projects, under the user's name and role. *)
Theorem login_then_dashboard now now' req req' w user rest :
  method req = POST -> path req = js "/login" ->
  route_of (method req') (path req') = Some GET_dashboard ->
  login_rows (field "username" req) (db w) = user :: rest ->
  validPassword (field "password" req) (lr_password_text user) = true ->
  fst (fst (serve [(now, req); (now', req')] anonymous w))
  = [Redirect "/dashboard";
     Render (dashboard_view (Some (lr_username user))
               (summaries (Some (lr_user_id user)) (db w)) None
               (str_eqb (lr_permissions user) (js "M")))]
  /\ forall s, In s (securities
                       (db (snd (serve [(now, req); (now', req')] anonymous w)))) ->
       sec_user_id s = lr_user_id user -> last_login s = Some now.
Proof.
  intros Hm Hp Hr Hrows Hpw.
  assert (E : app now req anonymous w = post_login now req anonymous w).
  { unfold app, router. rewrite Hp, Hm. reflexivity. }
  rewrite serve_cons, E, (post_login_accepted _ _ _ _ _ _ Hrows Hpw).
  cbn [fst snd]. rewrite serve_cons.
  rewrite app_logged_in by reflexivity. unfold router. rewrite Hr.
  unfold keep, get_dashboard, try_catch, bind, select_summaries, query,
    reading, isManager. cbn [fst snd db issued option_map ret userId
    sess_username sess_permissions serve].
  split; [reflexivity|].
  cbn [securities set_securities]. intros s Hs Hid.
  apply in_map_iff in Hs. destruct Hs as (s0 & Hs0 & _).
  destruct (sec_user_id s0 =? lr_user_id user) eqn:Ee.
  - subst s. reflexivity.
  - subst s. apply Z.eqb_neq in Ee. contradiction.
Qed.

Lemma login_then_dashboard_witness :
  fst (fst (serve [(100, Demo.login_as "alice" "pw-a");
                   (150, Demo.get "/dashboard")] anonymous Demo.after_logging))
  = [Redirect "/dashboard";
     Render (dashboard_view (Some (js "alice"))
               (summaries (Some 1) (db Demo.after_logging)) None
               (str_eqb (js "U") (js "M")))]
  /\ forall s, In s (securities
                       (db (snd (serve [(100, Demo.login_as "alice" "pw-a");
                                        (150, Demo.get "/dashboard")]
                                       anonymous Demo.after_logging)))) ->
       sec_user_id s = 1 -> last_login s = Some 100.
Proof.
  apply (login_then_dashboard 100 150 (Demo.login_as "alice" "pw-a")
           (Demo.get "/dashboard") Demo.after_logging
           (mkLoginRow 1 (js "alice") (Some (js "Alice")) (js "U") (js "pw-a"))
           []); reflexivity.
Defined.

(** No login without the password: when [POST /login] answers with the
    redirect to the dashboard, some account has the submitted user name
    and a stored password equal to the submitted one, and the session is
    that account's. *)
Theorem login_requires_stored_password now req sess w :
  method req = POST -> path req = js "/login" ->
  fst (fst (app now req sess w)) = Redirect "/dashboard" ->
  exists u s,
    In u (users (db w)) /\ In s (securities (db w))
    /\ Some (username u) = field "username" req
    /\ sec_user_id s = user_id u
    /\ Some (password_text s) = field "password" req
    /\ userId (snd (fst (app now req sess w))) = Some (user_id u)
    /\ isLoggedIn (snd (fst (app now req sess w))) = true.
Proof.
  intros Hm Hp.
  assert (E : app now req sess w = post_login now req sess w).
  { unfold app, router. rewrite Hp, Hm. reflexivity. }
  rewrite E.
  destruct (login_rows (field "username" req) (db w)) as [|user rest] eqn:Er.
  - rewrite post_login_refused by (rewrite Er; exact I). discriminate.
  - destruct (validPassword (field "password" req) (lr_password_text user))
      eqn:Ev.
    + rewrite (post_login_accepted _ _ _ _ _ _ Er Ev). intros _.
      unfold login_rows in Er.
      destruct (field "username" req) as [n|] eqn:En; [|discriminate].
      assert (Hin : In user (flat_map
                (fun u => if str_eqb (username u) n
                          then map (fun s => mkLoginRow (user_id u) (username u)
                                      (first_name u) (permissions u)
                                      (password_text s))
                                 (filter (fun s => sec_user_id s =? user_id u)
                                         (securities (db w)))
                          else []) (users (db w))))
        by (rewrite Er; left; reflexivity).
      apply in_flat_map in Hin. destruct Hin as (u & Hu & Hrow).
      destruct (str_eqb (username u) n) eqn:En'; [|destruct Hrow].
      apply str_eqb_eq in En'. apply in_map_iff in Hrow.
      destruct Hrow as (s & Hs & Hsin). apply filter_In in Hsin.
      destruct Hsin as [Hsin Hid]. apply Z.eqb_eq in Hid.
      exists u, s. subst user. cbn [lr_user_id lr_password_text fst snd userId
        isLoggedIn] in *.
      repeat split; auto; try congruence.
      unfold validPassword in Ev.
      destruct (field "password" req) as [pw|]; [|discriminate].
      apply str_eqb_eq in Ev. congruence.
    + rewrite post_login_refused by (rewrite Er; exact Ev). discriminate.
Qed.

Lemma login_requires_stored_password_witness :
  exists u s,
    In u (users (db Demo.w0)) /\ In s (securities (db Demo.w0))
    /\ Some (username u) = field "username" (Demo.login_as "bob" "pw-b")
    /\ sec_user_id s = user_id u
    /\ Some (password_text s) = field "password" (Demo.login_as "bob" "pw-b")
    /\ userId (snd (fst (app 100 (Demo.login_as "bob" "pw-b") anonymous
                             Demo.w0))) = Some (user_id u)
    /\ isLoggedIn (snd (fst (app 100 (Demo.login_as "bob" "pw-b") anonymous
                                 Demo.w0))) = true.
Proof.
  apply (login_requires_stored_password 100 (Demo.login_as "bob" "pw-b")
           anonymous Demo.w0); reflexivity.
Defined.

(** After [GET /logout] the session is empty, whatever it was: the
    client's next request to a protected path gets the login view and
    issues no statement. *)
Theorem logout_ends_session now now' req req' sess w :
  method req = GET -> path req = js "/logout" ->
  path req' <> js "/" -> path req' <> js "/login" -> path req' <> js "/logout" ->
  serve [(now, req); (now', req')] sess w
  = ([Redirect "/";
      Render (login_view (Some "Please log in to access this page"%string))],
     anonymous, w).
Proof.
  intros Hm Hp H1 H2 H3.
  assert (E : app now req sess w = ((Redirect "/", anonymous), w)).
  { unfold app, router. rewrite Hp, Hm. reflexivity. }
  rewrite serve_cons, E. cbn [fst snd]. rewrite serve_cons.
  unfold app. rewrite (protected_path _ H1 H2 H3). reflexivity.
Qed.

Lemma logout_ends_session_witness :
  serve [(150, Demo.get "/logout"); (160, Demo.get "/dashboard")]
        Demo.carol_session Demo.after_logging
  = ([Redirect "/";
      Render (login_view (Some "Please log in to access this page"%string))],
     anonymous, Demo.after_logging).
Proof.
  apply (logout_ends_session 150 160 (Demo.get "/logout")
           (Demo.get "/dashboard") Demo.carol_session Demo.after_logging);
    vm_compute; congruence.
Defined.

Lemma keeps_tables_update_last_login (d0 : Db) now uid :
  keeps (fun d => users d = users d0 /\ projects d = projects d0
                  /\ goals d = goals d0
                  /\ progress_logs d = progress_logs d0)
        (update_last_login now uid).
Proof.
  apply keeps_writing. intros d d' Hd H. accepted H. exact Hd.
Qed.

(** A client that is not logged in changes nothing but, by logging in, a
    [last_login] stamp: whatever it requests, the User, Project, Goal and
    ProgressLog tables stay as they are. *)
Theorem anonymous_requests_keep_tables now req sess w :
  isLoggedIn sess = false ->
  let d' := db (snd (app now req sess w)) in
  users d' = users (db w) /\ projects d' = projects (db w)
  /\ goals d' = goals (db w) /\ progress_logs d' = progress_logs (db w).
Proof.
  intros Hl.
  set (I := fun d => users d = users (db w) /\ projects d = projects (db w)
                     /\ goals d = goals (db w)
                     /\ progress_logs d = progress_logs (db w)).
  assert (H : preserves I (app now req sess)).
  { unfold app. rewrite Hl.
    destruct (includes openPaths (path req)) eqn:Ei; [|apply preserves_pure].
    apply includes_openPaths in Ei. unfold router.
    destruct Ei as [E|[E|E]]; rewrite E; destruct (method req);
      cbn [route_of]; try apply preserves_pure;
      try (apply preserves_keep; apply preserves_pure).
    unfold post_login, select_login. cbv zeta.
    apply preserves_try_catch.
    repeat first [ apply keeps_tables_update_last_login | keeps_step ]. }
  apply (H w). repeat split; reflexivity.
Qed.

Lemma anonymous_requests_keep_tables_witness :
  let d' := db (snd (app 150 (Demo.post "/delete/1" [] None) anonymous
                         Demo.after_logging)) in
  users d' = users (db Demo.after_logging)
  /\ projects d' = projects (db Demo.after_logging)
  /\ goals d' = goals (db Demo.after_logging)
  /\ progress_logs d' = progress_logs (db Demo.after_logging).
Proof.
  apply (anonymous_requests_keep_tables 150 (Demo.post "/delete/1" [] None)
           anonymous Demo.after_logging). reflexivity.
Defined.

(** ** What the pages show *)

Lemma insert_desc_in {A} (key : A -> Z) (x y : A) (l : list A) :
  In y (insert_desc key x l) <-> y = x \/ In y l.
Proof.
  induction l as [|z l IH]; simpl.
  - intuition.
  - destruct (key z <=? key x); simpl; [intuition|].
    rewrite IH. intuition.
Qed.

Lemma order_by_desc_in {A} (key : A -> Z) (y : A) (l : list A) :
  In y (order_by_desc key l) <-> In y l.
Proof.
  unfold order_by_desc. induction l as [|x l IH]; simpl; [tauto|].
  rewrite insert_desc_in, IH. intuition.
Qed.

Lemma insert_desc_length {A} (key : A -> Z) (x : A) (l : list A) :
  List.length (insert_desc key x l) = S (List.length l).
Proof.
  induction l as [|z l IH]; simpl; [reflexivity|].
  destruct (key z <=? key x); simpl; [reflexivity | rewrite IH; reflexivity].
Qed.

Lemma summaries_of_project_in (d : Db) (p : Project) (r : Summary) :
  In r (summaries_of_project d p) ->
  sm_id r = project_id p /\ sm_title r = title p
  /\ current_words r = currentTotal (project_id p) d.
Proof.
  unfold summaries_of_project.
  destruct (filter (total_words_goal (project_id p)) (goals d)) as [|g gs].
  - intros [<-|[]]. auto.
  - intros H. apply in_map_iff in H. destruct H as (g0 & <- & _). auto.
Qed.

Lemma uid_is_owns sess p :
  uid_is (userId sess) (proj_user_id p) = true -> owns sess p.
Proof.
  unfold uid_is, owns. destruct (userId sess) as [u|]; [|discriminate].
  intros H. apply Z.eqb_eq in H. congruence.
Qed.

(** The dashboard and the search page list projects of the session's
    user only, each with its current word count: no row of either page
    comes from another user's project. *)
Theorem listings_show_own_projects now req sess w r :
  route_of (method req) (path req) = Some r ->
  r = GET_dashboard \/ r = GET_search ->
  isLoggedIn sess = true ->
  exists rows term,
    fst (fst (app now req sess w))
    = Render (dashboard_view (sess_username sess) rows term (isManager sess))
    /\ forall row, In row rows -> own_row sess (db w) row.
Proof.
  intros Hr Hk Hl. rewrite (app_logged_in _ _ _ Hl). unfold router. rewrite Hr.
  destruct Hk as [-> | ->].
  - exists (summaries (userId sess) (db w)), None. split; [reflexivity|].
    intros row Hrow. unfold summaries in Hrow. apply in_flat_map in Hrow.
    destruct Hrow as (p & Hp & Hrow). apply order_by_desc_in in Hp.
    apply filter_In in Hp. destruct Hp as [Hp Ho].
    apply summaries_of_project_in in Hrow. exists p.
    repeat split; try tauto. apply uid_is_owns, Ho.
  - unfold keep, get_search, try_catch, bind, search_summaries, query, reading.
    cbn [fst snd option_map ret].
    eexists _, _. split; [reflexivity|].
    intros row Hrow. apply in_flat_map in Hrow.
    destruct Hrow as (p & Hp & Hrow). apply order_by_desc_in in Hp.
    apply filter_In in Hp. destruct Hp as [Hp Ho].
    apply andb_true_iff in Ho. destruct Ho as [Ho _].
    apply summaries_of_project_in in Hrow. exists p.
    repeat split; try tauto. apply uid_is_owns, Ho.
Qed.

Lemma listings_show_own_projects_witness :
  exists rows term,
    fst (fst (app 150 (Demo.get "/dashboard") Demo.bob_session
                  Demo.after_logging))
    = Render (dashboard_view (sess_username Demo.bob_session) rows term
                             (isManager Demo.bob_session))
    /\ forall row, In row rows ->
                   own_row Demo.bob_session (db Demo.after_logging) row.
Proof.
  apply (listings_show_own_projects 150 (Demo.get "/dashboard")
           Demo.bob_session Demo.after_logging GET_dashboard);
    [reflexivity | left; reflexivity | reflexivity].
Defined.



Lemma order_by_desc_length {A} (key : A -> Z) (l : list A) :
  List.length (order_by_desc key l) = List.length l.
Proof.
  unfold order_by_desc. induction l as [|x l IH]; simpl; [reflexivity|].
  rewrite insert_desc_length, IH. reflexivity.
Qed.

Lemma summaries_of_project_one (d : Db) (p : Project) :
  one_active_goal d ->
  map sm_id (summaries_of_project d p) = [project_id p].
Proof.
  intros H. specialize (H (project_id p)). unfold active_goals in H.
  unfold summaries_of_project.
  destruct (filter (total_words_goal (project_id p)) (goals d)) as [|g [|g' gs]];
    [reflexivity | reflexivity | simpl in H; lia].
Qed.

Lemma flat_map_singletons {A B C} (f : A -> list B) (g : B -> C) (h : A -> C)
    (l : list A) :
  (forall x, map g (f x) = [h x]) -> map g (flat_map f l) = map h l.
Proof.
  intros H. induction l as [|x l IH]; simpl; [reflexivity|].
  rewrite map_app, H, IH. reflexivity.
Qed.

(** As long as no project has two active goals, the dashboard has exactly
    one row for each project of the session's user, in the order of the
    listing: the join with Goal does not repeat a project. *)
Theorem dashboard_one_row_per_project now req sess w :
  one_active_goal (db w) ->
  route_of (method req) (path req) = Some GET_dashboard ->
  isLoggedIn sess = true ->
  exists rows,
    fst (fst (app now req sess w))
    = Render (dashboard_view (sess_username sess) rows None (isManager sess))
    /\ map sm_id rows
       = map project_id
           (order_by_desc start_date
              (filter (fun p => uid_is (userId sess) (proj_user_id p))
                      (projects (db w)))).
Proof.
  intros Hone Hr Hl. rewrite (app_logged_in _ _ _ Hl). unfold router.
  rewrite Hr. exists (summaries (userId sess) (db w)).
  split; [reflexivity|]. unfold summaries.
  apply flat_map_singletons. intros p. apply summaries_of_project_one, Hone.
Qed.

Lemma serve_keeps_goal_invariant (reqs : list (Z * Request)) :
  forall sess w, goal_invariant (db w) ->
                 goal_invariant (db (snd (serve reqs sess w))).
Proof.
  induction reqs as [|[now req] reqs IH]; intros sess w Hw; [exact Hw|].
  rewrite serve_cons. pose proof (preserves_app now req sess w Hw) as H1.
  destruct (app now req sess w) as [[r s1] w1]. cbn [fst snd] in *.
  specialize (IH s1 w1 H1).
  destruct (serve reqs s1 w1) as [[rs s2] w2]. exact IH.
Qed.

Lemma goal_invariant_db0 : goal_invariant Demo.db0.
Proof. split; [intros g [] | intros p; vm_compute; lia]. Qed.

Lemma dashboard_one_row_per_project_witness :
  exists rows,
    fst (fst (app 150 (Demo.get "/dashboard") Demo.alice_session
                  Demo.after_logging))
    = Render (dashboard_view (sess_username Demo.alice_session) rows None
                             (isManager Demo.alice_session))
    /\ map sm_id rows
       = map project_id
           (order_by_desc start_date
              (filter (fun p => uid_is (userId Demo.alice_session)
                                       (proj_user_id p))
                      (projects (db Demo.after_logging)))).
Proof.
  apply (dashboard_one_row_per_project 150 (Demo.get "/dashboard")
           Demo.alice_session Demo.after_logging);
    [|reflexivity|reflexivity].
  exact (proj2 (serve_keeps_goal_invariant (firstn 4 Demo.scenario) anonymous
                  Demo.w0 goal_invariant_db0)).
Defined.

(** ** Deleting a project *)





(** ** The edit form: goal and total *)













(** ** Counting words, continued *)














(** ** Project creation, continued *)

(** A handler that answers the same on both paths answers that. *)
Lemma try_catch_answer {A B C} (m1 : M A) (m2 : A -> M B)
    (m3 : A -> B -> M C) (r : Response) w :
  fst (try_catch
         (bind m1 (fun a => bind (m2 a) (fun b =>
            bind (m3 a b) (fun _ => ret r)))) r w) = r.
Proof.
  unfold try_catch, bind. destruct (m1 w) as [[a|] w1]; [|reflexivity].
  destruct (m2 a w1) as [[b|] w2]; [|reflexivity].
  destruct (m3 a b w2) as [[c|] w3]; reflexivity.
Qed.

Lemma keep_response sess (h : T Response) w :
  fst (fst (keep sess h w)) = fst (h w).
Proof. unfold keep. destruct (h w). reflexivity. Qed.

(** The database [POST /add] leaves, for an existing user and a start
    date the database reads: the Project row is inserted; the Goal row
    follows when the target is a number; the first entry follows the goal
    when the submitted count is positive. *)
Lemma post_add_db now req sess w u sd :
  route_of (method req) (path req) = Some POST_add ->
  isLoggedIn sess = true ->
  userId sess = Some u ->
  user_exists (db w) u = true ->
  startDate (body req) = Some sd ->
  let d := db w in
  let id := project_seq d in
  let d1 := mkDb (users d) (securities d)
                 (projects d ++ [mkProject id u (field "title" req)
                                   (field "genre" req)
                                   (or_null (field "description" req)) sd])
                 (goals d) (progress_logs d) (id + 1) (goal_seq d) in
  db (snd (app now req sess w))
  = match parseInt (field "targetWords" req),
          num_or (parseInt (field "dailyGoal" req)) 1000 with
    | Num tv, Num dg =>
        let d2 := mkDb (users d1) (securities d1) (projects d1)
                       (goals d1 ++ [mkGoal (goal_seq d1) id (js "total_words")
                                            tv dg sd true])
                       (progress_logs d1) (project_seq d1) (goal_seq d1 + 1) in
        match parseInt (field "currentWords" req) with
        | Num c =>
            if 0 <? c
            then set_progress_logs d2 (progress_logs d2 ++ [mkLog id c c sd])
            else d2
        | NaN => d2
        end
    | _, _ => d1
    end.
Proof.
  intros Hr Hl Hu He Hsd d id d1.
  rewrite (app_logged_in _ _ _ Hl). unfold router. rewrite Hr.
  rewrite keep_db. unfold post_add. rewrite Hu, Hsd.
  rewrite try_catch_respond. destruct w as [d0 tr]. cbn [db] in *.
  rewrite (bind_runs _ _ _ _ _ (insert_project_runs d0 tr u _ _ _ sd He)).
  fold d id d1.
  assert (He1 : project_exists d1 id = true).
  { unfold project_exists, d1. cbn [projects]. apply existsb_snoc.
    simpl. apply Z.eqb_refl. }
  destruct (num_or_num (parseInt (field "dailyGoal" req)) 1000) as [dg ->].
  destruct (parseInt (field "targetWords" req)) as [|tv]; [reflexivity|].
  rewrite (bind_runs _ _ _ _ _ (insert_goal_runs d1 _ id tv dg sd He1)).
  destruct (parseInt (field "currentWords" req)) as [|c]; [reflexivity|].
  cbn [num_gt0]. destruct (0 <? c); [|reflexivity].
  unfold insert_log_dated, query, writing, int_param, date_param, append_log.
  cbn [db issued option_map fst snd]. unfold project_exists in *.
  cbn [projects] in *. rewrite He1. reflexivity.
Qed.

(** [POST /add] is not one transaction: when the target is not a number
    the Goal insert is rejected after the Project row has been written.
    The answer is the same redirect, the project stays, and it has no goal
    and, whatever count was submitted, no entry. *)
Theorem add_without_target_leaves_bare_project now req sess w u sd :
  route_of (method req) (path req) = Some POST_add ->
  isLoggedIn sess = true ->
  userId sess = Some u ->
  user_exists (db w) u = true ->
  startDate (body req) = Some sd ->
  parseInt (field "targetWords" req) = NaN ->
  let d := db w in
  let d' := db (snd (app now req sess w)) in
  fst (fst (app now req sess w)) = Redirect "/dashboard"
  /\ projects d'
     = projects d ++ [mkProject (project_seq d) u (field "title" req)
                        (field "genre" req)
                        (or_null (field "description" req)) sd]
  /\ goals d' = goals d
  /\ progress_logs d' = progress_logs d.
Proof.
  intros Hr Hl Hu He Hsd Htv d d'. unfold d'.
  rewrite (post_add_db now req sess w u sd Hr Hl Hu He Hsd), Htv.
  split; [|repeat split].
  rewrite (app_logged_in _ _ _ Hl). unfold router. rewrite Hr.
  rewrite keep_response. apply try_catch_answer.
Qed.

Lemma add_without_target_leaves_bare_project_witness :
  let req := Demo.post "/add" [("title", "Novel"); ("currentWords", "100")]%string
                       (Some 10) in
  let d := db Demo.w0 in
  let d' := db (snd (app 110 req Demo.alice_session Demo.w0)) in
  fst (fst (app 110 req Demo.alice_session Demo.w0)) = Redirect "/dashboard"
  /\ projects d'
     = projects d ++ [mkProject (project_seq d) 1 (field "title" req)
                        (field "genre" req)
                        (or_null (field "description" req)) 10]
  /\ goals d' = goals d
  /\ progress_logs d' = progress_logs d.
Proof.
  apply (add_without_target_leaves_bare_project 110
           (Demo.post "/add" [("title", "Novel"); ("currentWords", "100")]%string
                      (Some 10))
           Demo.alice_session Demo.w0 1 10); reflexivity.
Defined.



(** ** Deleting an account *)




(** ** The daily goal in the older server *)

(** In [index.js] the listing and the edit form of one project can show
    two daily goals: for a target [t >= 0] the form shows one more than
    the listing exactly when the remainder of [t] by 50 is 25 or more, and
    the same number otherwise; without an active goal both show 1000. *)
Theorem legacy_daily_goals_differ (t : Z) :
  0 <= t ->
  IndexJs.daily_goal_on_form (Some t)
  = IndexJs.daily_goal_listed (Some t) + (if t mod 50 <? 25 then 0 else 1)
  /\ IndexJs.daily_goal_on_form None = IndexJs.daily_goal_listed None.
Proof.
  intros Ht. split; [|reflexivity].
  unfold IndexJs.daily_goal_on_form, IndexJs.daily_goal_listed,
    IndexJs.target_words, IndexJs.round_fiftieth.
  rewrite Z.quot_div_nonneg by lia.
  pose proof (Z.div_mod t 50 ltac:(lia)) as Hdm.
  pose proof (Z.mod_pos_bound t 50 ltac:(lia)) as Hb.
  destruct (t mod 50 <? 25) eqn:E.
  - apply Z.ltb_lt in E. rewrite Z.add_0_r. symmetry.
    apply (Z.div_unique _ _ _ (2 * (t mod 50) + 50)); lia.
  - apply Z.ltb_ge in E. symmetry.
    apply (Z.div_unique _ _ _ (2 * (t mod 50) - 50)); lia.
Qed.

Lemma legacy_daily_goals_differ_witness :
  IndexJs.daily_goal_on_form (Some 10030)
  = IndexJs.daily_goal_listed (Some 10030)
    + (if 10030 mod 50 <? 25 then 0 else 1)
  /\ IndexJs.daily_goal_on_form None = IndexJs.daily_goal_listed None.
Proof. apply (legacy_daily_goals_differ 10030). lia. Defined.

(** ** The scenario of the specification *)

Example scenario_totals :
  let w := snd (serve Demo.scenario anonymous Demo.w0) in
  progress_logs (db w)
  = [mkLog 1 3 3 120; mkLog 1 47 50 130; mkLog 1 (-10) 40 140]
  /\ currentTotal 1 (db w) = 40
  /\ ledger_consistent 1 (db w) = true.
Proof. vm_compute. repeat split; reflexivity. Qed.

Example parseInt_12abc : parseInt (Some (js " 12abc")) = Num 12.
Proof. reflexivity. Qed.
Example parseInt_hex : parseInt (Some (js "0x1f")) = Num 31.
Proof. reflexivity. Qed.
Example parseInt_neg : parseInt (Some (js "-7.9")) = Num (-7).
Proof. reflexivity. Qed.
Example parseInt_undefined : parseInt None = NaN.
Proof. reflexivity. Qed.
Example parseInt_empty : parseInt (Some (js "")) = NaN.
Proof. reflexivity. Qed.
Example split_trailing : split_ws (js "a  b ") = [js "a"; js "b"; js ""].
Proof. reflexivity. Qed.
Example tokens_padded : tokens (js " a  b ") = [js "a"; js "b"].
Proof. reflexivity. Qed.
Example route_trailing_slash : route_of GET (js "/Dashboard/") = Some GET_dashboard.
Proof. reflexivity. Qed.
